(** * flaml.tune.sample: search-space domains and their samplers

    A shallow embedding of [flaml/tune/sample.py] and the properties of its
    Domain / Sampler composition model.

    Conventions of the embedding.
    - Python objects of class [Domain] live in a heap indexed by locations,
      because [set_sampler] assigns to [self.sampler] and the builder methods
      work on [copy(self)].  Sampler objects are never assigned to after
      their constructor has run, so they are plain values.
    - A Python [float] is an extended rational: [nan], the two infinities, or
      an exact rational.  Rounding error of binary64 arithmetic is not
      modelled; comparisons, signs, infinities and [nan] follow IEEE 754.
    - Exceptions are results: every operation returns [Ok v] or [Raise e]
      together with the state it leaves behind.
    - The two global generators ([numpy.random] and [random]) are part of the
      state: each is the sequence of raw words it is going to produce and a
      cursor into it.  The functions of numpy and of the standard library
      that [sample.py] calls are written after their documentation: which
      errors they raise, and how a draw is made from the words of the
      generator.  [numpy.log] and [numpy.power] are left as parameters. *)

From Stdlib Require Import ZArith QArith Qround Qabs Lia Lqa String List.
From stdpp Require Import base option gmap.

Local Open Scope Z_scope.

(** ** Numbers *)

Module Num.

(** Python [float]. *)
Inductive float : Type :=
| nan
| neg_inf
| inf
| Fin (x : Q).

(** Python number: [int] or [float]. *)
Inductive num : Type :=
| Int (z : Z)
| Flt (f : float).

Definition of_Z (z : Z) : float := Fin (inject_Z z).

(** Numeric promotion of a number to [float]. *)
Definition to_float (n : num) : float :=
  match n with
  | Int z => of_Z z
  | Flt f => f
  end.

Definition Qltb (x y : Q) : bool := negb (Qle_bool y x).

(** [a < b] on floats; every comparison with [nan] is false. *)
Definition flt (a b : float) : bool :=
  match a, b with
  | nan, _ | _, nan => false
  | _, neg_inf => false
  | neg_inf, _ => true
  | inf, _ => false
  | Fin _, inf => true
  | Fin x, Fin y => Qltb x y
  end.

Definition fgt (a b : float) : bool := flt b a.

(** [a <= b] on floats. *)
Definition fle (a b : float) : bool :=
  match a, b with
  | nan, _ | _, nan => false
  | neg_inf, _ => true
  | _, inf => true
  | _, neg_inf => false
  | inf, _ => false
  | Fin x, Fin y => Qle_bool x y
  end.

(** [a == b] on floats. *)
Definition feq (a b : float) : bool :=
  match a, b with
  | neg_inf, neg_inf => true
  | inf, inf => true
  | Fin x, Fin y => Qeq_bool x y
  | _, _ => false
  end.

(** Truth value of a float: only zero is false ([nan] is true). *)
Definition truthy (a : float) : bool := negb (feq a (Fin 0)).

Definition is_finite (a : float) : bool :=
  match a with Fin _ => true | _ => false end.

Definition Qsign (x : Q) : comparison := (0 ?= x)%Q.

Definition fneg (a : float) : float :=
  match a with
  | nan => nan
  | neg_inf => inf
  | inf => neg_inf
  | Fin x => Fin (Qred (- x))
  end.

Definition fadd (a b : float) : float :=
  match a, b with
  | nan, _ | _, nan => nan
  | inf, neg_inf | neg_inf, inf => nan
  | inf, _ | _, inf => inf
  | neg_inf, _ | _, neg_inf => neg_inf
  | Fin x, Fin y => Fin (Qred (x + y))
  end.

Definition fsub (a b : float) : float := fadd a (fneg b).

(** An infinity of the sign of [x], [nan] for zero. *)
Definition signed_inf (s : comparison) (positive : float) : float :=
  match s with
  | Eq => nan
  | Lt => positive
  | Gt => fneg positive
  end.

Definition fmul (a b : float) : float :=
  match a, b with
  | nan, _ | _, nan => nan
  | Fin x, Fin y => Fin (Qred (x * y))
  | Fin x, i => signed_inf (Qsign x) i
  | i, Fin y => signed_inf (Qsign y) i
  | inf, inf | neg_inf, neg_inf => inf
  | _, _ => neg_inf
  end.

(** IEEE division, as [numpy.divide] computes it: dividing by zero gives an
    infinity (or [nan] for [0/0]) and no exception. *)
Definition fdiv (a b : float) : float :=
  match a, b with
  | nan, _ | _, nan => nan
  | Fin x, Fin y =>
      if Qeq_bool y 0 then signed_inf (Qsign x) inf
      else Fin (Qred (x / y))
  | Fin _, _ => Fin 0
  | i, Fin y => if Qeq_bool y 0 then i else signed_inf (Qsign y) i
  | _, _ => nan
  end.

(** Round half to even, the rounding of Python's [round] and of
    [numpy.round]. *)
Definition round_half_even (x : Q) : Z :=
  let f := Qfloor x in
  match (x - inject_Z f ?= 1 # 2)%Q with
  | Lt => f
  | Gt => f + 1
  | Eq => if Z.even f then f else f + 1
  end.

(** [numpy.round] on a float64. *)
Definition fround (a : float) : float :=
  match a with
  | Fin x => of_Z (round_half_even x)
  | other => other
  end.

(** Truncation toward zero, the integer part taken by [int(x)]. *)
Definition Qtrunc (x : Q) : Z :=
  if Qle_bool 0 x then Qfloor x else Qceiling x.

(** [math.isclose(a, b)] with its default tolerances [rel_tol=1e-09],
    [abs_tol=0.0]. *)
Definition rel_tol : Q := 1 # 1000000000.

Definition isclose (a b : float) : bool :=
  match a, b with
  | Fin x, Fin y =>
      Qeq_bool x y
      || Qle_bool (Qabs (y - x)) (Qabs (rel_tol * y))
      || Qle_bool (Qabs (y - x)) (Qabs (rel_tol * x))
      || Qle_bool (Qabs (y - x)) 0
  | _, _ => feq a b
  end.

End Num.
Export Num.

(** ** Exceptions and values *)


Inductive exn : Type :=
| ValueError (msg : string)
| AssertionError (msg : string)
| RuntimeError (msg : string)
| NotImplementedError
| ZeroDivisionError
| OverflowError
| TypeError
| IndexError
| AttributeError (name : string)
| SystemError (msg : string).

Inductive result (A : Type) : Type :=
| Ok (a : A)
| Raise (e : exn).
Arguments Ok {A} a.
Arguments Raise {A} e.

(** A [numpy.ndarray] of one dimension, of dtype [int64] or [float64]. *)
Inductive ndarray : Type :=
| int_array (l : list Z)
| float_array (l : list float).

(** The Python values that flow through [sample]. *)
#[warnings="-register-all"]
Inductive value : Type :=
| VNone
| VInt (z : Z)
| VFloat (f : float)
| VStr (s : string)
| VExc (e : exn)
| VArray (a : ndarray)
| VList (l : list value).

(** The [spec] argument of [sample]: passed along, never inspected. *)
Inductive Spec : Type :=
| NoSpec
| SomeSpec (tag : nat).

(** The messages of the errors raised in [sample.py]. *)
Definition SamplerAlreadySet : exn :=
  ValueError "You can only choose one sampler for parameter domains.".
Definition UniformNeedsLower : exn :=
  ValueError "Uniform requires a lower bound.".
Definition UniformNeedsUpper : exn :=
  ValueError "Uniform requires a upper bound.".
Definition LogUniformNeedsLower : exn :=
  ValueError "LogUniform requires a lower bound greater than 0.".
Definition LogUniformNeedsUpper : exn :=
  ValueError "LogUniform requires a upper bound greater than 0.".
Definition LowerNotDivisible : exn :=
  ValueError "Your lower variable bound is not divisible by quantization factor.".
Definition UpperNotDivisible : exn :=
  ValueError "Your upper variable bound is not divisible by quantization factor.".
Definition GridNotSampleable : exn :=
  RuntimeError "Do not call `sample()` on grid.".
Definition NormalNoLower : exn :=
  AssertionError "Normal sampling does not allow a lower value bound.".
Definition NormalNoUpper : exn :=
  AssertionError "Normal sampling does not allow a upper value bound.".

(** ** Samplers and domains *)

(** The sampler classes.  [Float_Uniform] is [Float._Uniform], and so on for
    the other nested classes. *)
Inductive Sampler : Type :=
| BaseSampler
| Uniform
| LogUniform (base : float)
| Normal (mean sd : float)
| Grid
| Float_Uniform
| Float_LogUniform (base : float)
| Float_Normal (mean sd : float)
| Integer_Uniform
| Integer_LogUniform (base : float)
| Categorical_Uniform
| Quantized (sampler : Sampler) (q : num).

(** The instance attributes set by the three [__init__] methods. *)
Inductive Attrs : Type :=
| Float (lower upper : float)
| Integer (lower upper : Z)
| Categorical (categories : list value).

(** A [Domain] object: the attributes of its class and [self.sampler]
    ([None] until [set_sampler] assigns it). *)
Record Domain : Type := mkDomain {
  attrs : Attrs;
  sampler : option Sampler
}.

Definition with_sampler (d : Domain) (s : Sampler) : Domain :=
  {| attrs := attrs d; sampler := Some s |}.

(** ** State: the heap of domains and the two global generators *)

Record RandomState : Type := mkRandomState {
  words : nat -> N;
  deviates : nat -> Q;
  cursor : nat
}.

Abbreviation loc := positive.

Record State : Type := mkState {
  heap : gmap loc Domain;
  np_random : RandomState;
  py_random : RandomState
}.

Definition M (A : Type) : Type := State -> result A * State.

Definition ret {A} (a : A) : M A := fun st => (Ok a, st).

Definition raise {A} (e : exn) : M A := fun st => (Raise e, st).

Definition bind {A B} (c : M A) (k : A -> M B) : M B :=
  fun st =>
    match c st with
    | (Ok a, st') => k a st'
    | (Raise e, st') => (Raise e, st')
    end.

Notation "x <- c ;; k" := (bind c (fun x => k))
  (at level 20, c at level 99, k at level 200, right associativity,
   format "'[' x  <-  c  ;;  '/' k ']'").
Notation "'do' c ;; k" := (bind c (fun _ => k))
  (at level 20, c at level 99, k at level 200, right associativity,
   format "'[' 'do'  c  ;;  '/' k ']'").

Definition lift {A} (r : result A) : M A := fun st => (r, st).

(** [assert cond, msg]. *)
Definition assert (cond : bool) (e : exn) : M unit :=
  if cond then ret tt else raise e.

(** *** The heap *)

Definition set_heap (h : gmap loc Domain) (st : State) : State :=
  {| heap := h; np_random := np_random st; py_random := py_random st |}.

Definition deref (l : loc) : M Domain := fun st =>
  match heap st !! l with
  | Some d => (Ok d, st)
  | None => (Raise (SystemError "dangling reference"), st)
  end.

Definition store (l : loc) (d : Domain) : M unit := fun st =>
  (Ok tt, set_heap (<[l := d]> (heap st)) st).

(** A new object. *)
Definition alloc (d : Domain) : M loc := fun st =>
  let l := fresh (dom (heap st)) in
  (Ok l, set_heap (<[l := d]> (heap st)) st).

(** [copy(self)]: a new object with the same instance attributes (a shallow
    copy: the list of categories and the sampler are shared, and neither is
    ever assigned to). *)
Definition copy (self : loc) : M loc :=
  d <- deref self ;; alloc d.

(** *** The generators *)

Definition advance (r : RandomState) : RandomState :=
  {| words := words r; deviates := deviates r; cursor := S (cursor r) |}.

(** A double in [[0, 1)] from 53 random bits, as both generators make it. *)
Definition next_double (r : RandomState) : Q :=
  (Z.of_N (words r (cursor r)) mod 2 ^ 53) # (2 ^ 53).

(** A standard normal deviate. *)
Definition next_gauss (r : RandomState) : Q := deviates r (cursor r).

Definition next_word (r : RandomState) : Z := Z.of_N (words r (cursor r)).

Fixpoint draws {A} (f : RandomState -> A) (n : nat) (r : RandomState)
  : list A * RandomState :=
  match n with
  | O => ([], r)
  | S n' =>
      let (xs, r') := draws f n' (advance r) in
      (f r :: xs, r')
  end.

Definition np_draws {A} (f : RandomState -> A) (n : nat) : M (list A) :=
  fun st =>
    let (xs, r') := draws f n (np_random st) in
    (Ok xs, {| heap := heap st; np_random := r'; py_random := py_random st |}).

Definition py_draws {A} (f : RandomState -> A) (n : nat) : M (list A) :=
  fun st =>
    let (xs, r') := draws f n (py_random st) in
    (Ok xs, {| heap := heap st; np_random := np_random st; py_random := r' |}).

(** *** Python builtins *)

(** [float(value)]. *)
Definition py_float (v : value) : result value :=
  match v with
  | VInt z => Ok (VFloat (of_Z z))
  | VFloat f => Ok (VFloat f)
  | VStr _ => Raise (ValueError "could not convert string to float")
  | _ => Raise TypeError
  end.

Definition int_of_float (f : float) : result Z :=
  match f with
  | Fin x => Ok (Qtrunc x)
  | nan => Raise (ValueError "cannot convert float NaN to integer")
  | _ => Raise OverflowError
  end.

(** [int(value)]. *)
Definition py_int (v : value) : result value :=
  match v with
  | VInt z => Ok (VInt z)
  | VFloat f =>
      match int_of_float f with
      | Ok z => Ok (VInt z)
      | Raise e => Raise e
      end
  | VStr _ => Raise (ValueError "invalid literal for int()")
  | _ => Raise TypeError
  end.

(** [a / b] on Python floats. *)
Definition py_truediv (a b : float) : result float :=
  if feq b (Fin 0) then Raise ZeroDivisionError else Ok (fdiv a b).

(** [round(a)] for a Python float. *)
Definition py_round (a : float) : result Z :=
  match a with
  | Fin x => Ok (round_half_even x)
  | nan => Raise (ValueError "cannot convert float NaN to integer")
  | _ => Raise OverflowError
  end.

(** *** numpy *)

Definition negative_dimensions : exn :=
  ValueError "negative dimensions are not allowed".

(** [np.random.uniform(low, high, size=size)]: [low + (high - low) * u] for
    [size] doubles [u] in [[0, 1)]. *)
Definition np_random_uniform (low high : num) (size : Z) : M (list float) :=
  let lo := to_float low in
  let range := fsub (to_float high) lo in
  if negb (is_finite range) then raise OverflowError
  else if size <? 0 then raise negative_dimensions
  else
    us <- np_draws next_double (Z.to_nat size) ;;
    ret (map (fun u => fadd lo (fmul range (Fin u))) us).

Definition int_of_num (n : num) : result Z :=
  match n with
  | Int z => Ok z
  | Flt f => int_of_float f
  end.

(** The bounds of numpy's default integer dtype. *)
Definition int64_min : Z := - 2 ^ 63.
Definition int64_max : Z := 2 ^ 63 - 1.

(** [np.random.randint(low, high, size=size)]: [size] integers from [low]
    (inclusive) to [high] (exclusive). *)
Definition np_random_randint (low high : num) (size : Z) : M (list Z) :=
  if size =? 0 then ret []
  else
    lo <- lift (int_of_num low) ;;
    hi <- lift (int_of_num high) ;;
    if lo <? int64_min then raise (ValueError "low is out of bounds for int64")
    else if int64_max <? hi - 1
    then raise (ValueError "high is out of bounds for int64")
    else if hi - 1 <? lo then raise (ValueError "low >= high")
    else if size <? 0 then raise negative_dimensions
    else
      ws <- np_draws next_word (Z.to_nat size) ;;
      ret (map (fun w => lo + w mod (hi - lo)) ws).

(** [np.random.normal(loc, scale, size=size)]. *)
Definition np_random_normal (loc scale : float) (size : Z) : M (list float) :=
  if flt scale (Fin 0) then raise (ValueError "scale < 0")
  else if size <? 0 then raise negative_dimensions
  else
    gs <- np_draws next_gauss (Z.to_nat size) ;;
    ret (map (fun g => fadd loc (fmul scale (Fin g))) gs).

(** [random.choices(population, k=k)]:
    [[population[floor(random() * n)] for i in repeat(None, k)]]. *)
Definition random_choices (population : list value) (k : Z)
  : M (list value) :=
  if k <=? 0 then ret []
  else
    match population with
    | [] => do py_draws next_double 1 ;; raise IndexError
    | x0 :: _ =>
        let n := inject_Z (Z.of_nat (length population)) in
        us <- py_draws next_double (Z.to_nat k) ;;
        ret (map (fun u => nth (Z.to_nat (Qfloor (u * n))) population x0) us)
    end.

(** The result of a numpy ufunc: a [float64] scalar or an array. *)
Inductive npval : Type :=
| np_scalar (f : float)
| np_array (l : list float).

Definition float_of_value (v : value) : option float :=
  match v with
  | VInt z => Some (of_Z z)
  | VFloat f => Some f
  | _ => None
  end.

Fixpoint floats_of_values (l : list value) : option (list float) :=
  match l with
  | [] => Some []
  | v :: l' =>
      match float_of_value v, floats_of_values l' with
      | Some f, Some fs => Some (f :: fs)
      | _, _ => None
      end
  end.

(** [np.divide(values, q)]: true division, elementwise on an array or a
    list of numbers; anything that is not numeric is a [TypeError]. *)
Definition np_divide (values : value) (q : num) : result npval :=
  let qf := to_float q in
  match values with
  | VInt z => Ok (np_scalar (fdiv (of_Z z) qf))
  | VFloat f => Ok (np_scalar (fdiv f qf))
  | VArray (int_array l) => Ok (np_array (map (fun z => fdiv (of_Z z) qf) l))
  | VArray (float_array l) => Ok (np_array (map (fun f => fdiv f qf) l))
  | VList l =>
      match floats_of_values l with
      | Some fs => Ok (np_array (map (fun f => fdiv f qf) fs))
      | None => Raise TypeError
      end
  | _ => Raise TypeError
  end.

(** [np.round(x)]. *)
Definition np_round (x : npval) : npval :=
  match x with
  | np_scalar f => np_scalar (fround f)
  | np_array l => np_array (map fround l)
  end.

(** [x * q] for a numpy value [x]. *)
Definition np_multiply (x : npval) (q : num) : npval :=
  let qf := to_float q in
  match x with
  | np_scalar f => np_scalar (fmul f qf)
  | np_array l => np_array (map (fun f => fmul f qf) l)
  end.

(** [np.round(items).astype(int)]; what is not finite becomes the least
    [int64], as the conversion does on x86-64. *)
Definition astype_int (f : float) : Z :=
  match f with
  | Fin x => Qtrunc x
  | _ => int64_min
  end.

(** [len(items)]. *)
Definition len (items : ndarray) : Z :=
  match items with
  | int_array l => Z.of_nat (length l)
  | float_array l => Z.of_nat (length l)
  end.

(** [items[0]]. *)
Definition getitem0 (items : ndarray) : result value :=
  match items with
  | int_array (z :: _) => Ok (VInt z)
  | float_array (f :: _) => Ok (VFloat f)
  | _ => Raise IndexError
  end.

(** ** The classes of [sample.py] *)

(** Attribute access [domain.lower], [domain.upper], [domain.categories];
    an object of a class without the attribute raises [AttributeError]. *)
Definition get_lower (d : Domain) : result num :=
  match attrs d with
  | Float lower _ => Ok (Flt lower)
  | Integer lower _ => Ok (Int lower)
  | Categorical _ => Raise (AttributeError "lower")
  end.

Definition get_upper (d : Domain) : result num :=
  match attrs d with
  | Float _ upper => Ok (Flt upper)
  | Integer _ upper => Ok (Int upper)
  | Categorical _ => Raise (AttributeError "upper")
  end.

Definition get_categories (d : Domain) : result (list value) :=
  match attrs d with
  | Categorical categories => Ok categories
  | _ => Raise (AttributeError "categories")
  end.

(** Truth value of [self.sampler]: [None] is false, every sampler object is
    true (no sampler class defines [__bool__] or [__len__]). *)
Definition sampler_set (o : option Sampler) : bool :=
  match o with
  | Some _ => true
  | None => false
  end.

(** [default_sampler_cls()] of the three domain classes. *)
Definition default_sampler_cls (d : Domain) : Sampler :=
  match attrs d with
  | Float _ _ => Float_Uniform
  | Integer _ _ => Integer_Uniform
  | Categorical _ => Categorical_Uniform
  end.

(** [Domain.cast], overridden by [Float.cast] and [Integer.cast]. *)
Definition cast (d : Domain) (v : value) : result value :=
  match attrs d with
  | Float _ _ => py_float v
  | Integer _ _ => py_int v
  | Categorical _ => Ok v
  end.

Definition Domain_cast (self : loc) (v : value) : M value :=
  d <- deref self ;; lift (cast d v).

(** [Domain.set_sampler]. *)
Definition set_sampler (self : loc) (s : Sampler) (allow_override : bool)
  : M unit :=
  d <- deref self ;;
  if sampler_set (sampler d) && negb allow_override
  then raise SamplerAlreadySet
  else store self (with_sampler d s).

(** [Domain.get_sampler]. *)
Definition get_sampler (self : loc) : M Sampler :=
  d <- deref self ;;
  match sampler d with
  | Some s => ret s
  | None => ret (default_sampler_cls d)
  end.

(** [Domain.is_grid]. *)
Definition is_grid (self : loc) : M bool :=
  d <- deref self ;;
  ret match sampler d with
      | Some Grid => true
      | _ => false
      end.

(** [LogUniform.__init__], [Normal.__init__] and [Quantized.__init__], run by
    the constructors of the classes that inherit them. *)
Definition LogUniform_init (mk : float -> Sampler) (base : float)
  : result Sampler :=
  if fgt base (Fin 0) then Ok (mk base)
  else Raise (AssertionError "Base has to be strictly greater than 0").

Definition Normal_init (mk : float -> float -> Sampler) (mean sd : float)
  : result Sampler :=
  if fgt sd (Fin 0) then Ok (mk mean sd)
  else Raise (AssertionError "SD has to be strictly greater than 0").

Definition Quantized_init (s : Sampler) (q : num) : result Sampler :=
  if sampler_set (Some s) then Ok (Quantized s q)
  else Raise (AssertionError "Quantized() expects a sampler instance").

Section Sample.

(** [numpy.log] and [numpy.power] on float64; the log-uniform samplers are the
    only code that calls them. *)
Variable np_log : float -> float.
Variable np_power : float -> float -> float.

(** The last line of every [sample] method of the nested sampler classes:
    [items if len(items) > 1 else domain.cast(items[0])]. *)
Definition items_or_scalar (domain : loc) (items : ndarray) : M value :=
  if 1 <? len items then ret (VArray items)
  else
    x <- lift (getitem0 items) ;;
    Domain_cast domain x.

(** [Float._Uniform.sample]. *)
Definition Float_Uniform_sample (domain : loc) (spec : Spec) (size : Z)
  : M value :=
  d <- deref domain ;;
  lower <- lift (get_lower d) ;;
  do assert (fgt (to_float lower) neg_inf)
       (AssertionError "Uniform needs a lower bound") ;;
  upper <- lift (get_upper d) ;;
  do assert (flt (to_float upper) inf)
       (AssertionError "Uniform needs a upper bound") ;;
  items <- np_random_uniform lower upper size ;;
  items_or_scalar domain (float_array items).

(** The draw shared by [Float._LogUniform.sample] and
    [Integer._LogUniform.sample], up to
    [self.base**(np.random.uniform(logmin, logmax, size=size))]. *)
Definition LogUniform_draw (base : float) (domain : loc) (size : Z)
  : M (list float) :=
  d <- deref domain ;;
  lower <- lift (get_lower d) ;;
  do assert (fgt (to_float lower) (Fin 0))
       (AssertionError "LogUniform needs a lower bound greater than 0") ;;
  upper <- lift (get_upper d) ;;
  do assert (flt (Fin 0) (to_float upper) && flt (to_float upper) inf)
       (AssertionError "LogUniform needs a upper bound greater than 0") ;;
  let logmin := fdiv (np_log (to_float lower)) (np_log base) in
  let logmax := fdiv (np_log (to_float upper)) (np_log base) in
  xs <- np_random_uniform (Flt logmin) (Flt logmax) size ;;
  ret (map (np_power base) xs).

(** [Float._LogUniform.sample]. *)
Definition Float_LogUniform_sample (base : float)
    (domain : loc) (spec : Spec) (size : Z) : M value :=
  items <- LogUniform_draw base domain size ;;
  items_or_scalar domain (float_array items).

(** [Float._Normal.sample]. *)
Definition Float_Normal_sample (mean sd : float)
    (domain : loc) (spec : Spec) (size : Z) : M value :=
  d <- deref domain ;;
  lower <- lift (get_lower d) ;;
  do assert (negb (truthy (to_float lower)) || feq (to_float lower) neg_inf)
       NormalNoLower ;;
  upper <- lift (get_upper d) ;;
  do assert (negb (truthy (to_float upper)) || feq (to_float upper) inf)
       NormalNoUpper ;;
  items <- np_random_normal mean sd size ;;
  items_or_scalar domain (float_array items).

(** [Integer._Uniform.sample]. *)
Definition Integer_Uniform_sample (domain : loc) (spec : Spec) (size : Z)
  : M value :=
  d <- deref domain ;;
  lower <- lift (get_lower d) ;;
  upper <- lift (get_upper d) ;;
  items <- np_random_randint lower upper size ;;
  items_or_scalar domain (int_array items).

(** [Integer._LogUniform.sample]. *)
Definition Integer_LogUniform_sample (base : float)
    (domain : loc) (spec : Spec) (size : Z) : M value :=
  items <- LogUniform_draw base domain size ;;
  let items := map (fun x => astype_int (fround x)) items in
  items_or_scalar domain (int_array items).

(** [Categorical._Uniform.sample]. *)
Definition Categorical_Uniform_sample (domain : loc) (spec : Spec) (size : Z)
  : M value :=
  d <- deref domain ;;
  categories <- lift (get_categories d) ;;
  items <- random_choices categories size ;;
  if 1 <? Z.of_nat (length items) then ret (VList items)
  else
    match items with
    | x :: _ => Domain_cast domain x
    | [] => raise IndexError
    end.

(** [Quantized.sample]; [inner] is the call
    [self.sampler.sample(domain, spec, size)]. *)
Definition Quantized_sample (inner : M value) (q : num) (domain : loc)
  : M value :=
  values <- inner ;;
  x <- lift (np_divide values q) ;;
  match np_multiply (np_round x) q with
  | np_scalar quantized => Domain_cast domain (VFloat quantized)
  | np_array quantized => ret (VList (map VFloat quantized))
  end.

(** [sampler.sample(domain, spec, size)], resolved on the class of the
    sampler.  The classes that do not override [Sampler.sample] raise
    [NotImplementedError]; [Grid.sample] returns the [RuntimeError] it
    builds. *)
Fixpoint Sampler_sample (s : Sampler) (domain : loc) (spec : Spec) (size : Z)
  : M value :=
  match s with
  | BaseSampler | Uniform | LogUniform _ | Normal _ _ =>
      raise NotImplementedError
  | Grid => ret (VExc GridNotSampleable)
  | Float_Uniform => Float_Uniform_sample domain spec size
  | Float_LogUniform base => Float_LogUniform_sample base domain spec size
  | Float_Normal mean sd => Float_Normal_sample mean sd domain spec size
  | Integer_Uniform => Integer_Uniform_sample domain spec size
  | Integer_LogUniform base => Integer_LogUniform_sample base domain spec size
  | Categorical_Uniform => Categorical_Uniform_sample domain spec size
  | Quantized inner q =>
      Quantized_sample (Sampler_sample inner domain spec size) q domain
  end.

(** [Domain.sample]. *)
Definition Domain_sample (self : loc) (spec : Spec) (size : Z) : M value :=
  s <- get_sampler self ;;
  Sampler_sample s self spec size.

End Sample.

(** ** The builder methods *)

(** [Float.__init__], [Integer.__init__], [Categorical.__init__]: the
    constructor call makes a new object without a sampler. *)
Definition Float_init (lower upper : option float) : M loc :=
  alloc {| attrs := Float (default neg_inf lower) (default inf upper);
           sampler := None |}.

Definition Integer_init (lower upper : Z) : M loc :=
  alloc {| attrs := Integer lower upper; sampler := None |}.

Definition Categorical_init (categories : list value) : M loc :=
  alloc {| attrs := Categorical categories; sampler := None |}.

(** [Float.uniform]. *)
Definition Float_uniform (self : loc) : M loc :=
  d <- deref self ;;
  lower <- lift (get_lower d) ;;
  if negb (fgt (to_float lower) neg_inf) then raise UniformNeedsLower
  else
    upper <- lift (get_upper d) ;;
    if negb (flt (to_float upper) inf) then raise UniformNeedsUpper
    else
      new <- copy self ;;
      do set_sampler new Float_Uniform false ;;
      ret new.

(** The two bound checks of [Float.loguniform] and [Integer.loguniform]. *)
Definition loguniform_bounds (self : loc) : M unit :=
  d <- deref self ;;
  lower <- lift (get_lower d) ;;
  if negb (fgt (to_float lower) (Fin 0)) then raise LogUniformNeedsLower
  else
    upper <- lift (get_upper d) ;;
    if negb (flt (Fin 0) (to_float upper) && flt (to_float upper) inf)
    then raise LogUniformNeedsUpper
    else ret tt.

(** [Float.loguniform]. *)
Definition Float_loguniform (self : loc) (base : float) : M loc :=
  do loguniform_bounds self ;;
  new <- copy self ;;
  s <- lift (LogUniform_init Float_LogUniform base) ;;
  do set_sampler new s false ;;
  ret new.

(** [Float.normal]. *)
Definition Float_normal (self : loc) (mean sd : float) : M loc :=
  new <- copy self ;;
  s <- lift (Normal_init Float_Normal mean sd) ;;
  do set_sampler new s false ;;
  ret new.

(** [isclose(bound / q, round(bound / q))]. *)
Definition divisible (bound q : float) : result bool :=
  match py_truediv bound q with
  | Raise e => Raise e
  | Ok a =>
      match py_round a with
      | Raise e => Raise e
      | Ok r => Ok (isclose a (of_Z r))
      end
  end.

(** [bound_set and not isclose(bound / q, round(bound / q))]: the condition
    of each of the two [if] statements of [Float.quantized]. *)
Definition not_divisible (bound_set : bool) (bound q : float) : result bool :=
  if bound_set then
    match divisible bound q with
    | Raise e => Raise e
    | Ok c => Ok (negb c)
    end
  else Ok false.

(** [Float.quantized]. *)
Definition Float_quantized (self : loc) (q : num) : M loc :=
  d <- deref self ;;
  lower <- lift (get_lower d) ;;
  bad <- lift (not_divisible (fgt (to_float lower) neg_inf)
                 (to_float lower) (to_float q)) ;;
  if bad : bool then raise LowerNotDivisible
  else
    upper <- lift (get_upper d) ;;
    bad <- lift (not_divisible (flt (to_float upper) inf)
                   (to_float upper) (to_float q)) ;;
    if bad : bool then raise UpperNotDivisible
    else
      new <- copy self ;;
      s0 <- get_sampler new ;;
      s <- lift (Quantized_init s0 q) ;;
      do set_sampler new s true ;;
      ret new.

(** [Integer.quantized]. *)
Definition Integer_quantized (self : loc) (q : num) : M loc :=
  new <- copy self ;;
  s0 <- get_sampler new ;;
  s <- lift (Quantized_init s0 q) ;;
  do set_sampler new s true ;;
  ret new.

(** [Integer.uniform]. *)
Definition Integer_uniform (self : loc) : M loc :=
  new <- copy self ;;
  do set_sampler new Integer_Uniform false ;;
  ret new.

(** [Integer.loguniform]. *)
Definition Integer_loguniform (self : loc) (base : float) : M loc :=
  do loguniform_bounds self ;;
  new <- copy self ;;
  s <- lift (LogUniform_init Integer_LogUniform base) ;;
  do set_sampler new s false ;;
  ret new.

(** [Categorical.uniform]. *)
Definition Categorical_uniform (self : loc) : M loc :=
  new <- copy self ;;
  do set_sampler new Categorical_Uniform false ;;
  ret new.

(** A call [self.uniform()], [self.loguniform(base)], [self.normal(mean, sd)]
    or [self.quantized(q)], resolved on the class of [self]. *)
Inductive builder : Type :=
| call_uniform
| call_loguniform (base : float)
| call_normal (mean sd : float)
| call_quantized (q : num).

Definition call (b : builder) (self : loc) : M loc :=
  d <- deref self ;;
  match b, attrs d with
  | call_uniform, Float _ _ => Float_uniform self
  | call_uniform, Integer _ _ => Integer_uniform self
  | call_uniform, Categorical _ => Categorical_uniform self
  | call_loguniform base, Float _ _ => Float_loguniform self base
  | call_loguniform base, Integer _ _ => Integer_loguniform self base
  | call_loguniform _, Categorical _ => raise (AttributeError "loguniform")
  | call_normal mean sd, Float _ _ => Float_normal self mean sd
  | call_normal _ _, _ => raise (AttributeError "normal")
  | call_quantized q, Float _ _ => Float_quantized self q
  | call_quantized q, Integer _ _ => Integer_quantized self q
  | call_quantized _, Categorical _ => raise (AttributeError "quantized")
  end.

(** ** The module-level constructors *)

Definition uniform (lower upper : float) : M loc :=
  self <- Float_init (Some lower) (Some upper) ;; Float_uniform self.

Definition quniform (lower upper : float) (q : num) : M loc :=
  self <- Float_init (Some lower) (Some upper) ;;
  self <- Float_uniform self ;;
  Float_quantized self q.

Definition loguniform (lower upper base : float) : M loc :=
  self <- Float_init (Some lower) (Some upper) ;; Float_loguniform self base.

Definition choice (categories : list value) : M loc :=
  self <- Categorical_init categories ;; Categorical_uniform self.

Definition randint (lower upper : Z) : M loc :=
  self <- Integer_init lower upper ;; Integer_uniform self.

Definition qrandint (lower upper : Z) (q : num) : M loc :=
  self <- Integer_init lower upper ;;
  self <- Integer_uniform self ;;
  Integer_quantized self q.

Definition randn (mean sd : float) : M loc :=
  self <- Float_init None None ;; Float_normal self mean sd.

(** The other module-level constructors. *)

Definition qloguniform (lower upper : float) (q : num) (base : float)
  : M loc :=
  self <- Float_init (Some lower) (Some upper) ;;
  self <- Float_loguniform self base ;;
  Float_quantized self q.

Definition lograndint (lower upper : Z) (base : float) : M loc :=
  self <- Integer_init lower upper ;; Integer_loguniform self base.

Definition qlograndint (lower upper : Z) (q : num) (base : float) : M loc :=
  self <- Integer_init lower upper ;;
  self <- Integer_loguniform self base ;;
  Integer_quantized self q.

Definition qrandn (mean sd : float) (q : num) : M loc :=
  self <- Float_init None None ;;
  self <- Float_normal self mean sd ;;
  Float_quantized self q.

(** ** Validity and the sequence interface of Categorical *)


Definition Integer_is_valid (self : loc) (v : Z) : M bool :=
  d <- deref self ;;
  lower <- lift (get_lower d) ;;
  if fle (to_float lower) (of_Z v) then
    upper <- lift (get_upper d) ;;
    ret (fle (of_Z v) (to_float upper))
  else ret false.

(** [Categorical.__len__]. *)
Definition Categorical_len (self : loc) : M Z :=
  d <- deref self ;;
  categories <- lift (get_categories d) ;;
  ret (Z.of_nat (length categories)).

(** [Categorical.__getitem__] for an integer [item]: a negative index counts
    from the end, and an index out of range raises [IndexError]. *)
Definition Categorical_getitem (self : loc) (item : Z) : M value :=
  d <- deref self ;;
  categories <- lift (get_categories d) ;;
  let n := Z.of_nat (length categories) in
  let i := if item <? 0 then item + n else item in
  if (0 <=? i) && (i <? n) then
    match nth_error categories (Z.to_nat i) with
    | Some x => ret x
    | None => raise IndexError
    end
  else raise IndexError.

(** * The vocabulary of the properties *)

(** A computation that leaves every object as it found it. *)
Definition preserves_heap {A} (c : M A) : Prop :=
  forall st, heap (snd (c st)) = heap st.

(** The location that the next allocation takes. *)
Definition fresh_loc (st : State) : loc := fresh (dom (heap st)).

(** The state after [new = copy(self)]. *)
Definition copied (st : State) (d : Domain) : State :=
  set_heap (<[fresh_loc st := d]> (heap st)) st.

(** The outcome of [new.set_sampler(s, allow_override); return new] after
    [new = copy(self)]. *)
Definition attached (st : State) (d : Domain) (s : Sampler)
    (allow_override : bool) : result loc * State :=
  if sampler_set (sampler d) && negb allow_override
  then (Raise SamplerAlreadySet, copied st d)
  else
    (Ok (fresh_loc st),
     set_heap (<[fresh_loc st := with_sampler d s]> (heap st)) st).

(** What every builder guarantees: the objects that existed keep their
    attributes and their sampler, and a returned object is a new one, equal to
    the receiver but for the sampler [s]. *)
Definition built (st : State) (d : Domain) (s : Sampler)
    (out : result loc * State) : Prop :=
  (forall l d0, heap st !! l = Some d0 -> heap (snd out) !! l = Some d0)
  /\ (forall new, fst out = Ok new ->
        heap st !! new = None
        /\ heap (snd out) !! new = Some (with_sampler d s)).

(** The sampler that [quantized] wraps: the attached one, or the default. *)
Definition current_sampler (d : Domain) : Sampler :=
  match sampler d with
  | Some s => s
  | None => default_sampler_cls d
  end.

(** The sampler that a builder call attaches to the copy. *)
Definition attached_by (b : builder) (d : Domain) : Sampler :=
  match b with
  | call_uniform => default_sampler_cls d
  | call_loguniform base =>
      match attrs d with
      | Float _ _ => Float_LogUniform base
      | _ => Integer_LogUniform base
      end
  | call_normal mean sd => Float_Normal mean sd
  | call_quantized q => Quantized (current_sampler d) q
  end.

(** The state after [n] draws from numpy's generator. *)
Definition np_drawn {A} (f : RandomState -> A) (n : nat) (st : State) : State :=
  {| heap := heap st;
     np_random := snd (draws f n (np_random st));
     py_random := py_random st |}.

(** A state to run examples from: no object allocated, and generators with
    some fixed sequence of words and deviates. *)
Definition example_entropy : RandomState :=
  {| words := fun n => (N.of_nat n * 3000000000000007 + 5)%N;
     deviates := fun n => Z.of_nat n # 2;
     cursor := 0 |}.

Definition empty_state : State :=
  {| heap := ∅; np_random := example_entropy; py_random := example_entropy |}.

(** A bound that the assertions of [Float._Normal.sample] reject: not zero
    and not the infinity that stands for "no bound". *)
Definition rejected_bound (b unbounded : float) : Prop :=
  truthy b = true /\ feq b unbounded = false.

(** [quantized] is the only builder that passes [allow_override=True]. *)
Definition overrides (b : builder) : bool :=
  match b with
  | call_quantized _ => true
  | _ => false
  end.

(** The receiver has a [quantized] method and its bound checks pass. *)
Definition quantizable (d : Domain) (q : num) : Prop :=
  match attrs d with
  | Float lower upper =>
      not_divisible (fgt lower neg_inf) lower (to_float q) = Ok false
      /\ not_divisible (flt upper inf) upper (to_float q) = Ok false
  | Integer _ _ => True
  | Categorical _ => False
  end.

(** The spec's words for the quantization step: [round(value / q) * q]. *)
Definition quantize (q : num) (x : float) : float :=
  fmul (fround (fdiv x (to_float q))) (to_float q).

(** A result of the wrapped sampler that is one number, and one that is a
    sequence of numbers. *)
Definition as_scalar (v : value) : option float := float_of_value v.

Definition as_sequence (v : value) : option (list float) :=
  match v with
  | VArray (int_array l) => Some (map of_Z l)
  | VArray (float_array l) => Some l
  | VList l => floats_of_values l
  | _ => None
  end.

(** The integers in a value returned by [sample]: the scalar, or the elements
    of the array. *)
Definition ints_of (v : value) : option (list Z) :=
  match v with
  | VInt z => Some [z]
  | VArray (int_array l) => Some l
  | _ => None
  end.

(** [lower] inclusive, [upper] exclusive. *)
Definition in_half_open (lower upper z : Z) : Prop := lower <= z < upper.

(** [low + (high - low) * u], as the float operations compute it on finite
    operands. *)
Definition lerp (lo hi u : Q) : Q :=
  Qred (lo + Qred (Qred (hi + Qred (- lo)) * u)).

(** Both ends inclusive. *)
Definition within (lo hi x : Q) : Prop := (lo <= x)%Q /\ (x <= hi)%Q.

(** The five values of the grid of step 5/2 between 0 and 10. *)
Definition grid_0_10 : list Q := [0; 5 # 2; 5; 15 # 2; 10]%Q.



(** ** The vocabulary of the further properties *)

(** A computation that leaves one component of the state as it found it. *)
Definition keeps {A B} (component : State -> B) (c : M A) : Prop :=
  forall st, component (snd (c st)) = component st.

(** Two states whose generators are in the same state. *)
Definition same_generators (st1 st2 : State) : Prop :=
  np_random st1 = np_random st2 /\ py_random st1 = py_random st2.

(** The samplers whose [sample] calls [np.random], and those whose [sample]
    calls [random.choices]. *)
Fixpoint draws_from_numpy (s : Sampler) : bool :=
  match s with
  | Float_Uniform | Float_LogUniform _ | Float_Normal _ _
  | Integer_Uniform | Integer_LogUniform _ => true
  | Quantized inner _ => draws_from_numpy inner
  | _ => false
  end.

Fixpoint draws_from_random (s : Sampler) : bool :=
  match s with
  | Categorical_Uniform => true
  | Quantized inner _ => draws_from_random inner
  | _ => false
  end.

(** Two computations, one on the domain [d1] at [l1] and one on the domain
    [d2] at [l2], that return the same result and leave the generators in the
    same state whenever they start with the generators in the same state;
    neither changes its heap. *)
Definition agree (l1 l2 : loc) (d1 d2 : Domain) {A} (c1 c2 : M A) : Prop :=
  forall st1 st2,
    heap st1 !! l1 = Some d1 -> heap st2 !! l2 = Some d2 ->
    same_generators st1 st2 ->
    fst (c1 st1) = fst (c2 st2)
    /\ same_generators (snd (c1 st1)) (snd (c2 st2))
    /\ heap (snd (c1 st1)) = heap st1
    /\ heap (snd (c2 st2)) = heap st2.

(** The state after [n] draws from the generator of [random]. *)
Definition py_drawn {A} (f : RandomState -> A) (n : nat) (st : State) : State :=
  {| heap := heap st;
     np_random := np_random st;
     py_random := snd (draws f n (py_random st)) |}.


(** The calls of the module-level constructors, and the domain that each
    returns when it returns. *)
Inductive constructor : Type :=
| new_uniform (lower upper : float)
| new_quniform (lower upper : float) (q : num)
| new_loguniform (lower upper base : float)
| new_qloguniform (lower upper : float) (q : num) (base : float)
| new_choice (categories : list value)
| new_randint (lower upper : Z)
| new_lograndint (lower upper : Z) (base : float)
| new_qrandint (lower upper : Z) (q : num)
| new_qlograndint (lower upper : Z) (q : num) (base : float)
| new_randn (mean sd : float)
| new_qrandn (mean sd : float) (q : num).

Definition construct (c : constructor) : M loc :=
  match c with
  | new_uniform lower upper => uniform lower upper
  | new_quniform lower upper q => quniform lower upper q
  | new_loguniform lower upper base => loguniform lower upper base
  | new_qloguniform lower upper q base => qloguniform lower upper q base
  | new_choice categories => choice categories
  | new_randint lower upper => randint lower upper
  | new_lograndint lower upper base => lograndint lower upper base
  | new_qrandint lower upper q => qrandint lower upper q
  | new_qlograndint lower upper q base => qlograndint lower upper q base
  | new_randn mean sd => randn mean sd
  | new_qrandn mean sd q => qrandn mean sd q
  end.

Definition constructed (c : constructor) : Domain :=
  match c with
  | new_uniform lower upper =>
      {| attrs := Float lower upper; sampler := Some Float_Uniform |}
  | new_quniform lower upper q =>
      {| attrs := Float lower upper;
         sampler := Some (Quantized Float_Uniform q) |}
  | new_loguniform lower upper base =>
      {| attrs := Float lower upper;
         sampler := Some (Float_LogUniform base) |}
  | new_qloguniform lower upper q base =>
      {| attrs := Float lower upper;
         sampler := Some (Quantized (Float_LogUniform base) q) |}
  | new_choice categories =>
      {| attrs := Categorical categories;
         sampler := Some Categorical_Uniform |}
  | new_randint lower upper =>
      {| attrs := Integer lower upper; sampler := Some Integer_Uniform |}
  | new_lograndint lower upper base =>
      {| attrs := Integer lower upper;
         sampler := Some (Integer_LogUniform base) |}
  | new_qrandint lower upper q =>
      {| attrs := Integer lower upper;
         sampler := Some (Quantized Integer_Uniform q) |}
  | new_qlograndint lower upper q base =>
      {| attrs := Integer lower upper;
         sampler := Some (Quantized (Integer_LogUniform base) q) |}
  | new_randn mean sd =>
      {| attrs := Float neg_inf inf; sampler := Some (Float_Normal mean sd) |}
  | new_qrandn mean sd q =>
      {| attrs := Float neg_inf inf;
         sampler := Some (Quantized (Float_Normal mean sd) q) |}
  end.

(** A computation that only allocates and makes no draw: the objects that
    existed are as they were, the generators too, and what it returns is a
    new object, equal to [d]. *)
Definition makes (c : M loc) (d : Domain) : Prop :=
  forall st,
    (forall l d0, heap st !! l = Some d0 -> heap (snd (c st)) !! l = Some d0)
    /\ same_generators (snd (c st)) st
    /\ (forall new,
          fst (c st) = Ok new ->
          heap st !! new = None /\ heap (snd (c st)) !! new = Some d).

(** One step of a builder chain: [makes], for a method of the object at
    [self], equal to [d]. *)
Definition extends (B : loc -> M loc) (d d' : Domain) : Prop :=
  forall self st,
    heap st !! self = Some d ->
    (forall l d0,
       heap st !! l = Some d0 -> heap (snd (B self st)) !! l = Some d0)
    /\ same_generators (snd (B self st)) st
    /\ (forall new,
          fst (B self st) = Ok new ->
          heap st !! new = None /\ heap (snd (B self st)) !! new = Some d').

(** [np.log] to the base 10 at 1, 10 and 100, for the examples. *)
Definition log10_of_1_10_100 (x : float) : float :=
  if feq x (Fin 1) then Fin 0
  else if feq x (Fin 10) then Fin 1
  else if feq x (Fin 100) then Fin 2
  else nan.

(** * Properties *)

(** ** Running a computation *)

Lemma bind_Ok {A B} (c : M A) (k : A -> M B) st a st' :
  c st = (Ok a, st') -> bind c k st = k a st'.
Proof. unfold bind. now intros ->. Qed.

Lemma bind_Raise {A B} (c : M A) (k : A -> M B) st e st' :
  c st = (Raise e, st') -> bind c k st = (Raise e, st').
Proof. unfold bind. now intros ->. Qed.

Lemma deref_Some st l d :
  heap st !! l = Some d -> deref l st = (Ok d, st).
Proof. unfold deref. now intros ->. Qed.

Lemma heap_set_heap h st : heap (set_heap h st) = h.
Proof. reflexivity. Qed.

(** ** Computations that leave the heap alone *)

Lemma preserves_ret {A} (a : A) : preserves_heap (ret a).
Proof. now intros st. Qed.

Lemma preserves_raise {A} e : preserves_heap (@raise A e).
Proof. now intros st. Qed.

Lemma preserves_lift {A} (r : result A) : preserves_heap (lift r).
Proof. now intros st. Qed.

Lemma preserves_bind {A B} (c : M A) (k : A -> M B) :
  preserves_heap c -> (forall a, preserves_heap (k a)) ->
  preserves_heap (bind c k).
Proof.
  intros Hc Hk st. unfold bind. specialize (Hc st).
  destruct (c st) as [[a | e] st1]; simpl in *.
  - now rewrite Hk.
  - exact Hc.
Qed.

Lemma preserves_deref l : preserves_heap (deref l).
Proof. intros st. unfold deref. now destruct (heap st !! l). Qed.

Lemma preserves_assert b e : preserves_heap (assert b e).
Proof. destruct b; [apply preserves_ret | apply preserves_raise]. Qed.

Lemma preserves_np_draws {A} (f : RandomState -> A) n :
  preserves_heap (np_draws f n).
Proof. intros st. unfold np_draws. now destruct (draws f n (np_random st)). Qed.

Lemma preserves_py_draws {A} (f : RandomState -> A) n :
  preserves_heap (py_draws f n).
Proof. intros st. unfold py_draws. now destruct (draws f n (py_random st)). Qed.

Create HintDb frame.
#[local] Hint Resolve preserves_ret preserves_raise preserves_lift
  preserves_deref preserves_assert preserves_np_draws preserves_py_draws
  : frame.

(** One step through a computation built from the pieces above. *)
Ltac frame_step :=
  lazymatch goal with
  | |- preserves_heap (bind _ _) => apply preserves_bind; [| intros ?]
  | |- preserves_heap (if ?b then _ else _) => destruct b
  | |- preserves_heap (match ?x with _ => _ end) => destruct x
  | |- preserves_heap (let _ := _ in _) => cbv zeta
  | |- preserves_heap _ => solve [auto with frame]
  end.

Ltac frame := repeat frame_step.

Lemma preserves_Domain_cast self v : preserves_heap (Domain_cast self v).
Proof. unfold Domain_cast. frame. Qed.

Lemma preserves_get_sampler self : preserves_heap (get_sampler self).
Proof. unfold get_sampler. frame. Qed.

Lemma preserves_np_random_uniform low high size :
  preserves_heap (np_random_uniform low high size).
Proof. unfold np_random_uniform. frame. Qed.

Lemma preserves_np_random_randint low high size :
  preserves_heap (np_random_randint low high size).
Proof. unfold np_random_randint. frame. Qed.

Lemma preserves_np_random_normal loc scale size :
  preserves_heap (np_random_normal loc scale size).
Proof. unfold np_random_normal. frame. Qed.

Lemma preserves_random_choices population k :
  preserves_heap (random_choices population k).
Proof. unfold random_choices. frame. Qed.

#[local] Hint Resolve preserves_Domain_cast preserves_get_sampler
  preserves_np_random_uniform preserves_np_random_randint
  preserves_np_random_normal preserves_random_choices : frame.

Lemma preserves_items_or_scalar domain items :
  preserves_heap (items_or_scalar domain items).
Proof. unfold items_or_scalar. frame. Qed.

#[local] Hint Resolve preserves_items_or_scalar : frame.

Section SampleFrame.

Variable np_log : float -> float.
Variable np_power : float -> float -> float.

Lemma preserves_LogUniform_draw base domain size :
  preserves_heap (LogUniform_draw np_log np_power base domain size).
Proof. unfold LogUniform_draw. frame. Qed.

Lemma preserves_Quantized_sample inner q domain :
  preserves_heap inner -> preserves_heap (Quantized_sample inner q domain).
Proof. intros H. unfold Quantized_sample. frame. Qed.

Lemma preserves_Sampler_sample s domain spec size :
  preserves_heap (Sampler_sample np_log np_power s domain spec size).
Proof.
  induction s; simpl;
    try (apply preserves_Quantized_sample; assumption);
    unfold Float_Uniform_sample, Float_LogUniform_sample, Float_Normal_sample,
      Integer_Uniform_sample, Integer_LogUniform_sample,
      Categorical_Uniform_sample;
    pose proof preserves_LogUniform_draw; frame.
Qed.


End SampleFrame.

(** ** Copy and attach: what a builder does to the heap *)

Lemma fresh_loc_None st : heap st !! fresh_loc st = None.
Proof. unfold fresh_loc. apply (not_elem_of_dom (D := gset loc)), is_fresh. Qed.

Lemma fresh_loc_ne st l d : heap st !! l = Some d -> fresh_loc st <> l.
Proof. intros H <-. rewrite fresh_loc_None in H. discriminate. Qed.

Lemma copy_run st self d :
  heap st !! self = Some d ->
  copy self st
  = (Ok (fresh_loc st), set_heap (<[fresh_loc st := d]> (heap st)) st).
Proof. intros H. unfold copy. now rewrite (bind_Ok _ _ _ _ _ (deref_Some _ _ _ H)). Qed.

Lemma set_sampler_run st self d s allow_override :
  heap st !! self = Some d ->
  set_sampler self s allow_override st
  = if sampler_set (sampler d) && negb allow_override
    then (Raise SamplerAlreadySet, st)
    else (Ok tt, set_heap (<[self := with_sampler d s]> (heap st)) st).
Proof.
  intros H. unfold set_sampler.
  rewrite (bind_Ok _ _ _ _ _ (deref_Some _ _ _ H)).
  now destruct (sampler_set (sampler d) && negb allow_override).
Qed.

Lemma get_sampler_run st self d :
  heap st !! self = Some d ->
  get_sampler self st
  = (Ok (match sampler d with
         | Some s => s
         | None => default_sampler_cls d
         end), st).
Proof.
  intros H. unfold get_sampler.
  rewrite (bind_Ok _ _ _ _ _ (deref_Some _ _ _ H)).
  now destruct (sampler d).
Qed.

Lemma attach_run st d s allow_override :
  (do set_sampler (fresh_loc st) s allow_override ;; ret (fresh_loc st))
    (copied st d)
  = attached st d s allow_override.
Proof.
  unfold bind, attached.
  rewrite (set_sampler_run _ _ d); [| apply lookup_insert_eq].
  destruct (sampler_set (sampler d) && negb allow_override); [reflexivity |].
  unfold ret, copied, set_heap. simpl. now rewrite insert_insert_eq.
Qed.

Lemma built_raise st d s e : built st d s (Raise e, st).
Proof. split; [auto | discriminate]. Qed.

Lemma built_copied st d s e : built st d s (Raise e, copied st d).
Proof.
  split; [| discriminate]. intros l d0 H. simpl.
  rewrite lookup_insert_ne; [assumption | eapply fresh_loc_ne; eassumption].
Qed.

Lemma built_attached st d s allow_override :
  built st d s (attached st d s allow_override).
Proof.
  unfold attached.
  destruct (sampler_set (sampler d) && negb allow_override).
  - apply built_copied.
  - split; simpl.
    + intros l d0 H.
      rewrite lookup_insert_ne; [assumption | eapply fresh_loc_ne; eassumption].
    + intros new [= <-]. split; [apply fresh_loc_None | apply lookup_insert_eq].
Qed.

#[local] Hint Resolve built_raise built_copied built_attached : frame.

(** ** The builders, run *)

Lemma bind_lift {A B} (r : result A) (k : A -> M B) st :
  bind (lift r) k st
  = match r with
    | Ok a => k a st
    | Raise e => (Raise e, st)
    end.
Proof. unfold bind, lift. now destruct r. Qed.

Lemma bind_copy {B} (k : loc -> M B) st self d :
  heap st !! self = Some d ->
  bind (copy self) k st = k (fresh_loc st) (copied st d).
Proof. intros H. now rewrite (bind_Ok _ _ _ _ _ (copy_run _ _ _ H)). Qed.

Lemma bind_deref {B} (k : Domain -> M B) st l d :
  heap st !! l = Some d -> bind (deref l) k st = k d st.
Proof. intros H. now rewrite (bind_Ok _ _ _ _ _ (deref_Some _ _ _ H)). Qed.

Lemma bind_get_sampler_copied {B} (k : Sampler -> M B) st d :
  bind (get_sampler (fresh_loc st)) k (copied st d)
  = k (match sampler d with
       | Some s => s
       | None => default_sampler_cls d
       end) (copied st d).
Proof.
  assert (H : heap (copied st d) !! fresh_loc st = Some d)
    by apply lookup_insert_eq.
  now rewrite (bind_Ok _ _ _ _ _ (get_sampler_run _ _ _ H)).
Qed.

Lemma Float_uniform_run st self d lower upper :
  heap st !! self = Some d -> attrs d = Float lower upper ->
  Float_uniform self st
  = if negb (fgt lower neg_inf) then (Raise UniformNeedsLower, st)
    else if negb (flt upper inf) then (Raise UniformNeedsUpper, st)
    else attached st d Float_Uniform false.
Proof.
  intros H Ha. unfold Float_uniform.
  rewrite (bind_deref _ _ _ _ H), bind_lift.
  unfold get_lower, get_upper. rewrite Ha. cbn [to_float].
  destruct (fgt lower neg_inf); cbn [negb]; [| reflexivity].
  rewrite bind_lift. cbn [to_float].
  destruct (flt upper inf); cbn [negb]; [| reflexivity].
  rewrite (bind_copy _ _ _ _ H). apply attach_run.
Qed.

Lemma loguniform_bounds_run st self d lower upper :
  heap st !! self = Some d ->
  get_lower d = Ok lower -> get_upper d = Ok upper ->
  loguniform_bounds self st
  = (if negb (fgt (to_float lower) (Fin 0)) then Raise LogUniformNeedsLower
     else if negb (flt (Fin 0) (to_float upper) && flt (to_float upper) inf)
     then Raise LogUniformNeedsUpper
     else Ok tt, st).
Proof.
  intros H Hl Hu. unfold loguniform_bounds.
  rewrite (bind_deref _ _ _ _ H), bind_lift, Hl.
  destruct (negb (fgt (to_float lower) (Fin 0))); [reflexivity |].
  rewrite bind_lift, Hu.
  now destruct (negb (flt (Fin 0) (to_float upper) && flt (to_float upper) inf)).
Qed.

(** The part that the three builders with a sampler constructor share:
    [new = copy(self); new.set_sampler(<constructor call>); return new]. *)
Lemma copy_init_attach_run st self d (init : result Sampler) :
  heap st !! self = Some d ->
  (new <- copy self ;; s <- lift init ;;
   do set_sampler new s false ;; ret new) st
  = match init with
    | Ok s => attached st d s false
    | Raise e => (Raise e, copied st d)
    end.
Proof.
  intros H. rewrite (bind_copy _ _ _ _ H), bind_lift.
  destruct init; [apply attach_run | reflexivity].
Qed.

Lemma Float_normal_run st self d mean sd :
  heap st !! self = Some d ->
  Float_normal self mean sd st
  = match Normal_init Float_Normal mean sd with
    | Ok s => attached st d s false
    | Raise e => (Raise e, copied st d)
    end.
Proof. intros H. unfold Float_normal. now apply copy_init_attach_run. Qed.

Lemma loguniform_run (mk : float -> Sampler) st self d lower upper base :
  heap st !! self = Some d ->
  get_lower d = Ok lower -> get_upper d = Ok upper ->
  (do loguniform_bounds self ;;
   new <- copy self ;; s <- lift (LogUniform_init mk base) ;;
   do set_sampler new s false ;; ret new) st
  = if negb (fgt (to_float lower) (Fin 0))
    then (Raise LogUniformNeedsLower, st)
    else if negb (flt (Fin 0) (to_float upper) && flt (to_float upper) inf)
    then (Raise LogUniformNeedsUpper, st)
    else match LogUniform_init mk base with
         | Ok s => attached st d s false
         | Raise e => (Raise e, copied st d)
         end.
Proof.
  intros H Hl Hu. unfold bind at 1.
  rewrite (loguniform_bounds_run _ _ _ _ _ H Hl Hu).
  destruct (negb (fgt (to_float lower) (Fin 0))); [reflexivity |].
  destruct (negb (flt (Fin 0) (to_float upper) && flt (to_float upper) inf));
    [reflexivity |].
  now apply copy_init_attach_run.
Qed.

Lemma Integer_quantized_run st self d q :
  heap st !! self = Some d ->
  Integer_quantized self q st
  = attached st d (Quantized (current_sampler d) q) true.
Proof.
  intros H. unfold Integer_quantized.
  rewrite (bind_copy _ _ _ _ H), bind_get_sampler_copied, bind_lift.
  cbn [Quantized_init sampler_set]. apply attach_run.
Qed.

Lemma Float_quantized_run st self d lower upper q :
  heap st !! self = Some d -> attrs d = Float lower upper ->
  Float_quantized self q st
  = match not_divisible (fgt lower neg_inf) lower (to_float q) with
    | Raise e => (Raise e, st)
    | Ok true => (Raise LowerNotDivisible, st)
    | Ok false =>
        match not_divisible (flt upper inf) upper (to_float q) with
        | Raise e => (Raise e, st)
        | Ok true => (Raise UpperNotDivisible, st)
        | Ok false => attached st d (Quantized (current_sampler d) q) true
        end
    end.
Proof.
  intros H Ha. unfold Float_quantized.
  rewrite (bind_deref _ _ _ _ H), bind_lift.
  unfold get_lower, get_upper. rewrite Ha. cbn [to_float]. rewrite bind_lift.
  destruct (not_divisible (fgt lower neg_inf) lower (to_float q)) as [[|]|];
    try reflexivity.
  rewrite !bind_lift. cbn [to_float].
  destruct (not_divisible (flt upper inf) upper (to_float q)) as [[|]|];
    try reflexivity.
  rewrite (bind_copy _ _ _ _ H), bind_get_sampler_copied, bind_lift.
  cbn [Quantized_init sampler_set]. apply attach_run.
Qed.

Lemma attach_only_run st self d s :
  heap st !! self = Some d ->
  (new <- copy self ;; do set_sampler new s false ;; ret new) st
  = attached st d s false.
Proof. intros H. rewrite (bind_copy _ _ _ _ H). apply attach_run. Qed.

Lemma built_call b st self d :
  heap st !! self = Some d -> built st d (attached_by b d) (call b self st).
Proof.
  intros H. unfold call. rewrite (bind_deref _ _ _ _ H).
  destruct (attrs d) as [lower upper | lower upper | categories] eqn:Ha;
    destruct b as [| base | mean sd | q];
    unfold attached_by, default_sampler_cls;
    rewrite ?Ha; try apply built_raise.
  - rewrite (Float_uniform_run _ _ _ _ _ H Ha).
    repeat case_match; simplify_eq; auto with frame.
  - unfold Float_loguniform.
    rewrite (loguniform_run _ _ _ _ (Flt lower) (Flt upper) _ H)
      by (unfold get_lower, get_upper; now rewrite Ha).
    unfold LogUniform_init. repeat case_match; simplify_eq; auto with frame.
  - rewrite (Float_normal_run _ _ _ _ _ H).
    unfold Normal_init. repeat case_match; simplify_eq; auto with frame.
  - rewrite (Float_quantized_run _ _ _ _ _ _ H Ha).
    repeat case_match; simplify_eq; auto with frame.
  - unfold Integer_uniform. rewrite (attach_only_run _ _ _ _ H).
    auto with frame.
  - unfold Integer_loguniform.
    rewrite (loguniform_run _ _ _ _ (Int lower) (Int upper) _ H)
      by (unfold get_lower, get_upper; now rewrite Ha).
    unfold LogUniform_init. repeat case_match; simplify_eq; auto with frame.
  - rewrite (Integer_quantized_run _ _ _ _ H). auto with frame.
  - unfold Categorical_uniform. rewrite (attach_only_run _ _ _ _ H).
    auto with frame.
Qed.

(** ** Sampling, run *)

Lemma Domain_cast_run st self d v :
  heap st !! self = Some d -> Domain_cast self v st = (cast d v, st).
Proof. intros H. unfold Domain_cast. now rewrite (bind_deref _ _ _ _ H). Qed.

Lemma items_or_scalar_run st self d items :
  heap st !! self = Some d ->
  items_or_scalar self items st
  = (if 1 <? len items then Ok (VArray items)
     else match getitem0 items with
          | Ok x => cast d x
          | Raise e => Raise e
          end, st).
Proof.
  intros H. unfold items_or_scalar.
  destruct (1 <? len items); [reflexivity |].
  rewrite bind_lift. destruct (getitem0 items); [| reflexivity].
  now apply Domain_cast_run.
Qed.

Lemma np_draws_run {A} (f : RandomState -> A) n st :
  np_draws f n st = (Ok (fst (draws f n (np_random st))), np_drawn f n st).
Proof.
  unfold np_draws, np_drawn. now destruct (draws f n (np_random st)).
Qed.

Lemma draws_length {A} (f : RandomState -> A) n r :
  length (fst (draws f n r)) = n.
Proof.
  revert r. induction n as [| n IH]; intros r; simpl; [reflexivity |].
  specialize (IH (advance r)). destruct (draws f n (advance r)).
  simpl in *. now rewrite IH.
Qed.

Lemma draws_Forall {A} (P : A -> Prop) (f : RandomState -> A) n r :
  (forall r', P (f r')) -> Forall P (fst (draws f n r)).
Proof.
  intros HP. revert r. induction n as [| n IH]; intros r; simpl.
  - constructor.
  - specialize (IH (advance r)). destruct (draws f n (advance r)).
    simpl in *. constructor; [apply HP | exact IH].
Qed.

Lemma Float_Normal_sample_run st self d lower upper mean sd spec size :
  heap st !! self = Some d -> attrs d = Float lower upper ->
  Float_Normal_sample mean sd self spec size st
  = if negb (truthy lower) || feq lower neg_inf then
      if negb (truthy upper) || feq upper inf then
        (items <- np_random_normal mean sd size ;;
         items_or_scalar self (float_array items)) st
      else (Raise NormalNoUpper, st)
    else (Raise NormalNoLower, st).
Proof.
  intros H Ha. unfold Float_Normal_sample.
  rewrite (bind_deref _ _ _ _ H), bind_lift.
  unfold get_lower, get_upper. rewrite Ha. cbn [to_float].
  destruct (negb (truthy lower) || feq lower neg_inf); [| reflexivity].
  unfold assert at 1. unfold bind at 1, ret at 1.
  rewrite bind_lift. cbn [to_float].
  destruct (negb (truthy upper) || feq upper inf); reflexivity.
Qed.

Lemma Domain_sample_run np_log np_power st self d spec size :
  heap st !! self = Some d ->
  Domain_sample np_log np_power self spec size st
  = Sampler_sample np_log np_power (current_sampler d) self spec size st.
Proof.
  intros H. unfold Domain_sample.
  now rewrite (bind_Ok _ _ _ _ _ (get_sampler_run _ _ _ H)).
Qed.

Lemma Qle_bool_false x y : Qle_bool x y = false <-> (y < x)%Q.
Proof.
  rewrite <- not_true_iff_false, Qle_bool_iff. split.
  - apply Qnot_le_lt.
  - intros H1 H2. exact (Qlt_not_le _ _ H1 H2).
Qed.

Lemma Qltb_true x y : Qltb x y = true <-> (x < y)%Q.
Proof. unfold Qltb. rewrite negb_true_iff. apply Qle_bool_false. Qed.

Lemma Qltb_false x y : Qltb x y = false <-> (y <= x)%Q.
Proof. unfold Qltb. rewrite negb_false_iff. apply Qle_bool_iff. Qed.

Lemma fgt_0_not_flt sd : fgt sd (Fin 0) = true -> flt sd (Fin 0) = false.
Proof.
  destruct sd as [| | | x]; try reflexivity; try discriminate.
  unfold fgt, flt. rewrite Qltb_true, Qltb_false. apply Qlt_le_weak.
Qed.

(** ** Grid *)

(** C1 (fails on the code).  The claim: [sample] on a domain whose sampler
    is a [Grid] always raises and never returns a value.  The code:
    [Grid.sample] has [return RuntimeError(...)] where [raise] was meant, so
    for a domain of any class, any [spec], any [size] and any state,
    attaching a [Grid] and calling [sample] returns normally, and the value
    returned is the exception object. *)
Theorem Grid_sample_returns_the_error_object
    (np_log : float -> float) (np_power : float -> float -> float)
    (a : Attrs) (spec : Spec) (size : Z) (st : State) :
  exists self st',
    (self <- alloc {| attrs := a; sampler := None |} ;;
     do set_sampler self Grid false ;;
     v <- Domain_sample np_log np_power self spec size ;;
     ret (self, v)) st
    = (Ok (self, VExc GridNotSampleable), st')
    /\ heap st' !! self = Some {| attrs := a; sampler := Some Grid |}.
Proof.
  set (d := {| attrs := a; sampler := None |}).
  exists (fresh_loc st),
    (set_heap (<[fresh_loc st := with_sampler d Grid]> (heap st)) st).
  split; [| apply lookup_insert_eq].
  unfold bind at 1. change (alloc d st) with (Ok (fresh_loc st), copied st d).
  cbv iota beta.
  unfold bind at 1.
  rewrite (set_sampler_run _ _ d) by apply lookup_insert_eq.
  cbn [sampler d sampler_set andb].
  unfold bind at 1.
  erewrite Domain_sample_run by apply lookup_insert_eq.
  cbn. unfold copied, set_heap, ret. cbn. now rewrite insert_insert_eq.
Qed.

(** ** Normal sampling and the bounds of a Float *)

Lemma rejected_bound_assert b unbounded :
  rejected_bound b unbounded -> negb (truthy b) || feq b unbounded = false.
Proof. now intros [-> ->]. Qed.

(** C2, counterexample.  [Float(0, 10).normal()] does not fail: it returns a
    new domain with the Normal sampler attached, although the bounds are not
    the two infinities. *)
Lemma Float_0_10_normal_is_built :
  exists new st',
    (self <- Float_init (Some (Fin 0)) (Some (Fin 10)) ;;
     Float_normal self (Fin 0) (Fin 1)) empty_state
    = (Ok new, st')
    /\ heap st' !! new
       = Some {| attrs := Float (Fin 0) (Fin 10);
                 sampler := Some (Float_Normal (Fin 0) (Fin 1)) |}.
Proof. eexists _, _. split; vm_compute; reflexivity. Qed.

(** C2, as amended.  [normal(mean, sd)] with [sd > 0], on a Float domain
    that has no sampler yet, never looks at the bounds: it returns a new
    domain with the Normal sampler attached.  The bounds are checked when
    sampling: [sample] on the new domain raises an [AssertionError] if the
    lower bound is nonzero and not [-inf], or the upper bound is nonzero and
    not [+inf]. *)
Theorem Float_normal_defers_the_bound_check
    (np_log : float -> float) (np_power : float -> float -> float)
    (st : State) (self : loc) (d : Domain) (lower upper mean sd : float) :
  heap st !! self = Some d ->
  attrs d = Float lower upper ->
  sampler d = None ->
  fgt sd (Fin 0) = true ->
  exists new st',
    Float_normal self mean sd st = (Ok new, st')
    /\ heap st' !! new
       = Some {| attrs := Float lower upper;
                 sampler := Some (Float_Normal mean sd) |}
    /\ forall spec size,
         (rejected_bound lower neg_inf ->
          Domain_sample np_log np_power new spec size st'
          = (Raise NormalNoLower, st'))
         /\ (~ rejected_bound lower neg_inf -> rejected_bound upper inf ->
             Domain_sample np_log np_power new spec size st'
             = (Raise NormalNoUpper, st')).
Proof.
  intros H Ha Hs Hsd.
  rewrite (Float_normal_run _ _ _ _ _ H). unfold Normal_init. rewrite Hsd.
  unfold attached. rewrite Hs. cbn [sampler_set andb].
  eexists _, _. split; [reflexivity |].
  set (d' := with_sampler d (Float_Normal mean sd)).
  set (st' := set_heap _ st).
  assert (H' : heap st' !! fresh_loc st = Some d') by apply lookup_insert_eq.
  split; [unfold d', with_sampler; now rewrite <- Ha |].
  intros spec size.
  rewrite (Domain_sample_run _ _ _ _ _ _ _ H').
  cbn [current_sampler d' with_sampler sampler Sampler_sample].
  rewrite (Float_Normal_sample_run _ _ _ lower upper _ _ _ _ H')
    by exact Ha.
  split.
  - intros Hl. now rewrite (rejected_bound_assert _ _ Hl).
  - intros Hl Hu. rewrite (rejected_bound_assert _ _ Hu).
    destruct (negb (truthy lower) || feq lower neg_inf) eqn:E; [reflexivity |].
    exfalso. apply Hl. apply orb_false_iff in E as [E1 E2].
    split; [now apply negb_false_iff | exact E2].
Qed.

(** The amended C2 at [Float(0, 10).normal()]: built, and its [sample]
    raises. *)
Lemma Float_normal_defers_the_bound_check_witness :
  exists new st',
    Float_normal 1%positive (Fin 0) (Fin 1)
      (snd (Float_init (Some (Fin 0)) (Some (Fin 10)) empty_state))
    = (Ok new, st')
    /\ heap st' !! new
       = Some {| attrs := Float (Fin 0) (Fin 10);
                 sampler := Some (Float_Normal (Fin 0) (Fin 1)) |}
    /\ Domain_sample (fun _ => nan) (fun _ _ => nan) new NoSpec 1 st'
       = (Raise NormalNoUpper, st').
Proof.
  destruct (Float_normal_defers_the_bound_check
              (fun _ => nan) (fun _ _ => nan)
              (snd (Float_init (Some (Fin 0)) (Some (Fin 10)) empty_state))
              1%positive
              {| attrs := Float (Fin 0) (Fin 10); sampler := None |}
              (Fin 0) (Fin 10) (Fin 0) (Fin 1))
    as (new & st' & Hrun & Hnew & Hsample).
  - vm_compute. reflexivity.
  - reflexivity.
  - reflexivity.
  - reflexivity.
  - exists new, st'. split; [exact Hrun |]. split; [exact Hnew |].
    apply (Hsample NoSpec 1).
    + intros [Ht _]. vm_compute in Ht. discriminate.
    + split; reflexivity.
Defined.

(** C10.  A Float domain whose lower bound is zero or [-inf] and whose upper
    bound is zero or [+inf], with a Normal sampler ([sd > 0], as the
    constructor asserts): [sample(size=1)] succeeds and returns a float,
    [mean + sd * g] for the deviate [g] drawn.  The assertions test the truth
    value of the bound, so a bound equal to zero passes as if there were
    none. *)
Theorem Normal_sample_takes_zero_for_no_bound
    (np_log : float -> float) (np_power : float -> float -> float)
    (st : State) (self : loc) (d : Domain) (lower upper mean sd : float)
    (spec : Spec) :
  heap st !! self = Some d ->
  attrs d = Float lower upper ->
  sampler d = Some (Float_Normal mean sd) ->
  fgt sd (Fin 0) = true ->
  feq lower (Fin 0) = true \/ lower = neg_inf ->
  feq upper (Fin 0) = true \/ upper = inf ->
  Domain_sample np_log np_power self spec 1 st
  = (Ok (VFloat (fadd mean (fmul sd (Fin (next_gauss (np_random st)))))),
     np_drawn next_gauss 1 st).
Proof.
  intros H Ha Hs Hsd Hl Hu.
  rewrite (Domain_sample_run _ _ _ _ _ _ _ H).
  unfold current_sampler. rewrite Hs. cbn [Sampler_sample].
  rewrite (Float_Normal_sample_run _ _ _ _ _ _ _ _ _ H Ha).
  assert (El : negb (truthy lower) || feq lower neg_inf = true).
  { destruct Hl as [Hl | ->]; [| reflexivity].
    unfold truthy. now rewrite Hl. }
  assert (Eu : negb (truthy upper) || feq upper inf = true).
  { destruct Hu as [Hu | ->]; [| reflexivity].
    unfold truthy. now rewrite Hu. }
  rewrite El, Eu. unfold np_random_normal.
  rewrite (fgt_0_not_flt _ Hsd). cbn [Z.ltb Z.compare].
  unfold bind at 1. unfold bind at 1. rewrite np_draws_run.
  change (Z.to_nat 1) with 1%nat. unfold ret at 1.
  erewrite items_or_scalar_run by exact H.
  cbn [draws fst map len length getitem0].
  change (1 <? Z.of_nat 1) with false. cbv iota.
  unfold cast. rewrite Ha. reflexivity.
Qed.

(** C10 at [Float(0, None).normal()]. *)
Lemma Normal_sample_takes_zero_for_no_bound_witness :
  Domain_sample (fun _ => nan) (fun _ _ => nan) 2%positive NoSpec 1
    (snd ((self <- Float_init (Some (Fin 0)) None ;;
           Float_normal self (Fin 0) (Fin 1)) empty_state))
  = (Ok (VFloat (Fin 0)),
     np_drawn next_gauss 1
       (snd ((self <- Float_init (Some (Fin 0)) None ;;
              Float_normal self (Fin 0) (Fin 1)) empty_state))).
Proof.
  rewrite (Normal_sample_takes_zero_for_no_bound _ _ _ 2%positive
             {| attrs := Float (Fin 0) inf;
                sampler := Some (Float_Normal (Fin 0) (Fin 1)) |}
             (Fin 0) inf (Fin 0) (Fin 1) NoSpec).
  - reflexivity.
  - vm_compute. reflexivity.
  - reflexivity.
  - reflexivity.
  - reflexivity.
  - left. reflexivity.
  - right. reflexivity.
Defined.

(** ** One sampler per domain *)

Lemma attached_taken st d s0 s :
  sampler d = Some s0 ->
  attached st d s false = (Raise SamplerAlreadySet, copied st d).
Proof. intros Hs. unfold attached. now rewrite Hs. Qed.

Lemma call_taken b st self d s0 :
  heap st !! self = Some d -> sampler d = Some s0 -> overrides b = false ->
  exists e st', call b self st = (Raise e, st').
Proof.
  intros H Hs Hb. unfold call. rewrite (bind_deref _ _ _ _ H).
  destruct (attrs d) as [lower upper | lower upper | categories] eqn:Ha;
    destruct b as [| base | mean sd | q]; try discriminate Hb;
    try (eexists _, _; reflexivity).
  - rewrite (Float_uniform_run _ _ _ _ _ H Ha), (attached_taken _ _ _ _ Hs).
    repeat case_match; eexists _, _; reflexivity.
  - unfold Float_loguniform.
    rewrite (loguniform_run _ _ _ _ (Flt lower) (Flt upper) _ H)
      by (unfold get_lower, get_upper; now rewrite Ha).
    repeat case_match; rewrite ?(attached_taken _ _ _ _ Hs);
      eexists _, _; reflexivity.
  - rewrite (Float_normal_run _ _ _ _ _ H).
    repeat case_match; rewrite ?(attached_taken _ _ _ _ Hs);
      eexists _, _; reflexivity.
  - unfold Integer_uniform.
    rewrite (attach_only_run _ _ _ _ H), (attached_taken _ _ _ _ Hs).
    eexists _, _; reflexivity.
  - unfold Integer_loguniform.
    rewrite (loguniform_run _ _ _ _ (Int lower) (Int upper) _ H)
      by (unfold get_lower, get_upper; now rewrite Ha).
    repeat case_match; rewrite ?(attached_taken _ _ _ _ Hs);
      eexists _, _; reflexivity.
  - unfold Categorical_uniform.
    rewrite (attach_only_run _ _ _ _ H), (attached_taken _ _ _ _ Hs).
    eexists _, _; reflexivity.
Qed.

Lemma call_quantized_run st self d q :
  heap st !! self = Some d -> quantizable d q ->
  call (call_quantized q) self st
  = attached st d (Quantized (current_sampler d) q) true.
Proof.
  intros H Hq. unfold call. rewrite (bind_deref _ _ _ _ H).
  unfold quantizable in Hq.
  destruct (attrs d) as [lower upper | lower upper | categories] eqn:Ha.
  - destruct Hq as [Hl Hu].
    now rewrite (Float_quantized_run _ _ _ _ _ _ H Ha), Hl, Hu.
  - now apply Integer_quantized_run.
  - contradiction.
Qed.

(** C8.  On a domain that has a sampler attached:
    - [set_sampler] without the override flag raises the "only one sampler"
      error and changes nothing;
    - so every builder other than [quantized] ([uniform], [loguniform],
      [normal]) fails, and the receiver keeps its sampler;
    - [quantized(q)], where the receiver has the method and its bound checks
      pass, succeeds: the new domain carries [Quantized] around the sampler
      that was attached, and the receiver keeps its own. *)
Theorem a_second_sampler_needs_the_override
    (st : State) (self : loc) (d : Domain) (s0 : Sampler) :
  heap st !! self = Some d ->
  sampler d = Some s0 ->
  (forall s, set_sampler self s false st = (Raise SamplerAlreadySet, st))
  /\ (forall b, overrides b = false ->
        exists e st',
          call b self st = (Raise e, st') /\ heap st' !! self = Some d)
  /\ (forall q, quantizable d q ->
        exists new st',
          call (call_quantized q) self st = (Ok new, st')
          /\ heap st' !! new = Some (with_sampler d (Quantized s0 q))
          /\ heap st' !! self = Some d).
Proof.
  intros H Hs. split; [| split].
  - intros s. rewrite (set_sampler_run _ _ _ _ _ H). now rewrite Hs.
  - intros b Hb.
    destruct (call_taken b _ _ _ _ H Hs Hb) as (e & st' & Hrun).
    exists e, st'. split; [exact Hrun |].
    pose proof (built_call b _ _ _ H) as [Hframe _].
    rewrite Hrun in Hframe. now apply Hframe.
  - intros q Hq.
    pose proof (built_call (call_quantized q) _ _ _ H) as [Hframe Hnew].
    assert (Hc : current_sampler d = s0)
      by (unfold current_sampler; now rewrite Hs).
    rewrite (call_quantized_run _ _ _ _ H Hq) in *.
    unfold attached in *. cbn [negb andb attached_by] in *.
    rewrite andb_false_r, Hc in *. cbn [fst snd] in *.
    eexists _, _. split; [reflexivity |].
    destruct (Hnew _ eq_refl) as [_ Hn].
    split; [exact Hn | now apply Hframe].
Qed.

(** C8 at [Float(1, 10).uniform()]: a second sampler is refused,
    [loguniform()] fails, [quantized(1)] wraps the uniform sampler. *)
Lemma a_second_sampler_needs_the_override_witness :
  let st := snd (uniform (Fin 1) (Fin 10) empty_state) in
  set_sampler 2%positive (Float_LogUniform (Fin 10)) false st
  = (Raise SamplerAlreadySet, st)
  /\ (exists e st',
        call (call_loguniform (Fin 10)) 2%positive st = (Raise e, st'))
  /\ (exists new st',
        call (call_quantized (Int 1)) 2%positive st = (Ok new, st')
        /\ heap st' !! new
           = Some {| attrs := Float (Fin 1) (Fin 10);
                     sampler := Some (Quantized Float_Uniform (Int 1)) |}).
Proof.
  intros st.
  destruct (a_second_sampler_needs_the_override st 2%positive
              {| attrs := Float (Fin 1) (Fin 10);
                 sampler := Some Float_Uniform |} Float_Uniform)
    as (Hset & Hcall & Hq).
  - vm_compute. reflexivity.
  - reflexivity.
  - split; [apply Hset | split].
    + destruct (Hcall (call_loguniform (Fin 10)) eq_refl)
        as (e & st' & Hrun & _).
      exists e, st'. exact Hrun.
    + destruct (Hq (Int 1)) as (new & st' & Hrun & Hnew & _).
      * split; vm_compute; reflexivity.
      * exists new, st'. split; [exact Hrun | exact Hnew].
Defined.

(** ** Builders and [sample] leave the receiver alone *)



(** ** Quantized *)

(** C3.  [Quantized.sample] runs the wrapped sampler first and does nothing
    else to the state.  If the wrapped sampler raises, so does it.  If the
    wrapped sampler returns one number [x], the result is
    [domain.cast(round(x / q) * q)].  If it returns a sequence [xs], the
    result is the list of [round(x / q) * q] for [x] in [xs], as floats: no
    cast to the type of the domain is applied to the elements. *)
Theorem Quantized_sample_quantizes_what_the_wrapped_sampler_draws
    (np_log : float -> float) (np_power : float -> float -> float)
    (inner : Sampler) (q : num) (domain : loc) (d : Domain)
    (spec : Spec) (size : Z) (st : State) :
  heap st !! domain = Some d ->
  let wrapped := Sampler_sample np_log np_power inner domain spec size st in
  let out :=
    Sampler_sample np_log np_power (Quantized inner q) domain spec size st in
  snd out = snd wrapped
  /\ (forall e, fst wrapped = Raise e -> fst out = Raise e)
  /\ (forall v x,
        fst wrapped = Ok v -> as_scalar v = Some x ->
        fst out = cast d (VFloat (quantize q x)))
  /\ (forall v xs,
        fst wrapped = Ok v -> as_sequence v = Some xs ->
        fst out = Ok (VList (map (fun x => VFloat (quantize q x)) xs))).
Proof.
  intros H wrapped out.
  pose proof (preserves_Sampler_sample np_log np_power inner domain spec
                size st) as Hheap.
  subst out. cbn [Sampler_sample]. unfold Quantized_sample, bind.
  fold wrapped in Hheap |- *.
  destruct wrapped as [[v | e] st1]; cbn [fst snd] in *.
  2:{ repeat split; try discriminate. now intros e' [= ->]. }
  rewrite <- Hheap in H. unfold lift.
  assert (Hcast : forall f,
             Domain_cast domain (VFloat f) st1 = (cast d (VFloat f), st1))
    by (intros f; now apply Domain_cast_run).
  destruct v as [| z | f | s | e | [l | l] | l]; cbn [np_divide];
    try (repeat split; try discriminate; intros v' x [= <-]; discriminate).
  - (* int *)
    cbn [np_round np_multiply]. rewrite Hcast. repeat split.
    + discriminate.
    + intros v' x [= <-] [= <-]. reflexivity.
    + intros v' x [= <-]. discriminate.
  - (* float *)
    cbn [np_round np_multiply]. rewrite Hcast. repeat split.
    + discriminate.
    + intros v' x [= <-] [= <-]. reflexivity.
    + intros v' x [= <-]. discriminate.
  - (* int64 array *)
    cbn [np_round np_multiply]. repeat split.
    + discriminate.
    + intros v' x [= <-]. discriminate.
    + intros v' xs [= <-] [= <-]. unfold ret. cbn [fst]. f_equal. f_equal.
      rewrite !map_map. reflexivity.
  - (* float64 array *)
    cbn [np_round np_multiply]. repeat split.
    + discriminate.
    + intros v' x [= <-]. discriminate.
    + intros v' xs [= <-] [= <-]. unfold ret. cbn [fst]. f_equal. f_equal.
      rewrite !map_map. reflexivity.
  - (* list *)
    destruct (floats_of_values l) as [fs |] eqn:E.
    + cbn [np_round np_multiply]. repeat split.
      * discriminate.
      * intros v' x [= <-]. discriminate.
      * intros v' xs [= <-]. cbn [as_sequence]. rewrite E. intros [= <-].
        unfold ret. cbn [fst]. f_equal. f_equal.
        rewrite !map_map. reflexivity.
    + repeat split.
      * discriminate.
      * intros v' x [= <-]. discriminate.
      * intros v' xs [= <-]. cbn [as_sequence]. rewrite E. discriminate.
Qed.

(** ** Integer: uniform draws are half-open *)

Lemma np_random_randint_in_range lower upper size st zs st' :
  np_random_randint (Int lower) (Int upper) size st = (Ok zs, st') ->
  Forall (in_half_open lower upper) zs.
Proof.
  unfold np_random_randint.
  destruct (size =? 0);
    [unfold ret; cbv beta; intros [= <- _]; constructor |].
  rewrite bind_lift. cbn [int_of_num]. rewrite bind_lift. cbn [int_of_num].
  unfold raise.
  destruct (lower <? int64_min); [cbv beta; discriminate |].
  destruct (int64_max <? upper - 1); [cbv beta; discriminate |].
  destruct (upper - 1 <? lower) eqn:E; [cbv beta; discriminate |].
  destruct (size <? 0); [cbv beta; discriminate |].
  unfold bind. rewrite np_draws_run. unfold ret. cbv beta. intros [= <- _].
  apply Z.ltb_ge in E. apply Forall_map, draws_Forall. intros r.
  unfold in_half_open.
  pose proof (Z.mod_pos_bound (next_word r) (upper - lower)). lia.
Qed.

Lemma np_random_randint_run lower upper size st :
  lower < upper -> int64_min <= lower -> upper - 1 <= int64_max ->
  1 <= size ->
  np_random_randint (Int lower) (Int upper) size st
  = (Ok (map (fun w => lower + w mod (upper - lower))
           (fst (draws next_word (Z.to_nat size) (np_random st)))),
     np_drawn next_word (Z.to_nat size) st).
Proof.
  intros Hlt Hlo Hhi Hsize. unfold np_random_randint.
  replace (size =? 0) with false by (symmetry; apply Z.eqb_neq; lia).
  rewrite bind_lift. cbn [int_of_num]. rewrite bind_lift. cbn [int_of_num].
  replace (lower <? int64_min) with false by (symmetry; apply Z.ltb_ge; lia).
  replace (int64_max <? upper - 1) with false
    by (symmetry; apply Z.ltb_ge; lia).
  replace (upper - 1 <? lower) with false by (symmetry; apply Z.ltb_ge; lia).
  replace (size <? 0) with false by (symmetry; apply Z.ltb_ge; lia).
  unfold bind. now rewrite np_draws_run.
Qed.

Lemma Integer_Uniform_sample_run st self d lower upper spec size :
  heap st !! self = Some d -> attrs d = Integer lower upper ->
  Integer_Uniform_sample self spec size st
  = (items <- np_random_randint (Int lower) (Int upper) size ;;
     items_or_scalar self (int_array items)) st.
Proof.
  intros H Ha. unfold Integer_Uniform_sample.
  rewrite (bind_deref _ _ _ _ H), !bind_lift.
  unfold get_lower, get_upper. now rewrite Ha.
Qed.

Lemma randint_run lower upper st :
  exists new st1,
    randint lower upper st = (Ok new, st1)
    /\ heap st1 !! new
       = Some {| attrs := Integer lower upper;
                 sampler := Some Integer_Uniform |}.
Proof.
  unfold randint, Integer_init.
  set (d := {| attrs := Integer lower upper; sampler := None |}).
  unfold bind at 1.
  change (alloc d st) with (Ok (fresh_loc st), copied st d). cbv iota beta.
  unfold Integer_uniform.
  rewrite (attach_only_run _ _ d) by apply lookup_insert_eq.
  unfold attached. cbn [sampler d sampler_set andb].
  eexists _, _. split; [reflexivity |]. apply lookup_insert_eq.
Qed.

(** C4.  For [randint(lower, upper)], that is
    [Integer(lower, upper).uniform()], and any [size]:
    - whatever [sample] returns is an integer or an array of integers, and
      every one of them is at least [lower] and less than [upper];
    - if [lower < upper] (both within numpy's integer type) and
      [size >= 1], [sample] does return: one integer for [size = 1], an
      array of [size] integers otherwise. *)
Theorem Integer_uniform_sample_excludes_upper
    (np_log : float -> float) (np_power : float -> float -> float)
    (lower upper : Z) (spec : Spec) (size : Z) (st : State) :
  exists new st1,
    randint lower upper st = (Ok new, st1)
    /\ (forall v st2,
          Domain_sample np_log np_power new spec size st1 = (Ok v, st2) ->
          exists zs,
            ints_of v = Some zs /\ Forall (in_half_open lower upper) zs)
    /\ (lower < upper -> int64_min <= lower -> upper - 1 <= int64_max ->
        1 <= size ->
        exists zs st2,
          Domain_sample np_log np_power new spec size st1
          = (Ok (if size =? 1 then VInt (hd 0 zs)
                 else VArray (int_array zs)), st2)
          /\ length zs = Z.to_nat size
          /\ Forall (in_half_open lower upper) zs).
Proof.
  destruct (randint_run lower upper st) as (new & st1 & Hrun & Hnew).
  exists new, st1. split; [exact Hrun |].
  assert (Hsample :
    Domain_sample np_log np_power new spec size st1
    = (items <- np_random_randint (Int lower) (Int upper) size ;;
       items_or_scalar new (int_array items)) st1).
  { rewrite (Domain_sample_run _ _ _ _ _ _ _ Hnew).
    cbn [current_sampler sampler Sampler_sample].
    now apply (Integer_Uniform_sample_run _ _ _ _ _ _ _ Hnew). }
  rewrite Hsample. split.
  - intros v st2. unfold bind.
    destruct (np_random_randint (Int lower) (Int upper) size st1)
      as [[zs | e] st1'] eqn:E; [| discriminate].
    pose proof (np_random_randint_in_range _ _ _ _ _ _ E) as Hzs.
    pose proof (preserves_np_random_randint (Int lower) (Int upper) size st1)
      as Hheap.
    rewrite E in Hheap. cbn [snd] in Hheap. rewrite <- Hheap in Hnew.
    rewrite (items_or_scalar_run _ _ _ _ Hnew). cbn [len getitem0].
    destruct (1 <? Z.of_nat (length zs)).
    + intros [= <- _]. exists zs. now split.
    + destruct zs as [| z zs']; [discriminate |].
      cbn [cast attrs py_int]. intros [= <- _]. exists [z]. split; [reflexivity |].
      constructor; [now inversion Hzs | constructor].
  - intros Hlt Hlo Hhi Hsize. unfold bind.
    rewrite (np_random_randint_run _ _ _ _ Hlt Hlo Hhi Hsize).
    set (ws := fst (draws next_word (Z.to_nat size) (np_random st1))).
    set (zs := map (fun w => lower + w mod (upper - lower)) ws).
    assert (Hlen : length zs = Z.to_nat size)
      by (unfold zs, ws; now rewrite length_map, draws_length).
    assert (Hzs : Forall (in_half_open lower upper) zs).
    { apply Forall_map, draws_Forall. intros r. unfold in_half_open.
      pose proof (Z.mod_pos_bound (next_word r) (upper - lower)). lia. }
    erewrite items_or_scalar_run by exact Hnew.
    exists zs, (np_drawn next_word (Z.to_nat size) st1).
    split; [| split; assumption].
    f_equal. cbn [len]. rewrite Hlen, Z2Nat.id by lia.
    destruct (Z.eqb_spec size 1) as [-> | Hne].
    + destruct zs as [| z zs']; [discriminate Hlen |]. reflexivity.
    + replace (1 <? size) with true by (symmetry; apply Z.ltb_lt; lia).
      reflexivity.
Qed.

(** ** Float: uniform draws stay within the bounds *)

Lemma lerp_eq lo hi u :
  fadd (Fin lo) (fmul (fsub (Fin hi) (Fin lo)) (Fin u)) = Fin (lerp lo hi u).
Proof. reflexivity. Qed.

Lemma lerp_bounds lo hi u :
  (lo <= hi)%Q -> (0 <= u)%Q -> (u < 1)%Q ->
  (lo <= lerp lo hi u)%Q /\ (lerp lo hi u <= hi)%Q.
Proof.
  intros Hle H0 H1. unfold lerp. rewrite !Qred_correct.
  assert (Hr : (0 <= hi + - lo)%Q) by lra.
  pose proof (Qmult_le_0_compat _ _ Hr H0) as Hp0.
  assert (Hp1 : ((hi + - lo) * u <= (hi + - lo) * 1)%Q).
  { rewrite !(Qmult_comm (hi + - lo)).
    apply Qmult_le_compat_r; [now apply Qlt_le_weak | exact Hr]. }
  split; lra.
Qed.

Lemma next_double_range r :
  (0 <= next_double r)%Q /\ (next_double r < 1)%Q.
Proof.
  unfold next_double.
  pose proof (Z.mod_pos_bound (Z.of_N (words r (cursor r))) (2 ^ 53)
                ltac:(reflexivity)) as [H0 H1].
  set (k := Z.of_N (words r (cursor r)) mod 2 ^ 53) in *.
  unfold Qle, Qlt. cbn [Qnum Qden].
  change (Z.pos (2 ^ 53)) with (2 ^ 53). lia.
Qed.

Lemma np_random_uniform_run lo hi size st :
  0 <= size ->
  np_random_uniform (Flt (Fin lo)) (Flt (Fin hi)) size st
  = (Ok (map Fin (map (lerp lo hi)
                    (fst (draws next_double (Z.to_nat size)
                            (np_random st))))),
     np_drawn next_double (Z.to_nat size) st).
Proof.
  intros Hsize. unfold np_random_uniform. cbn [to_float fsub fneg fadd].
  cbn [is_finite negb].
  replace (size <? 0) with false by (symmetry; apply Z.ltb_ge; lia).
  unfold bind. rewrite np_draws_run. unfold ret. now rewrite map_map.
Qed.

Lemma Float_Uniform_sample_run st self d lo hi spec size :
  heap st !! self = Some d -> attrs d = Float (Fin lo) (Fin hi) ->
  Float_Uniform_sample self spec size st
  = (items <- np_random_uniform (Flt (Fin lo)) (Flt (Fin hi)) size ;;
     items_or_scalar self (float_array items)) st.
Proof.
  intros H Ha. unfold Float_Uniform_sample.
  rewrite (bind_deref _ _ _ _ H), bind_lift.
  unfold get_lower, get_upper. rewrite Ha. cbn [to_float fgt flt assert].
  unfold bind at 1, ret at 1. rewrite bind_lift. cbn [to_float flt].
  reflexivity.
Qed.

Lemma uniform_run lo hi st :
  exists new st1,
    uniform (Fin lo) (Fin hi) st = (Ok new, st1)
    /\ heap st1 !! new
       = Some {| attrs := Float (Fin lo) (Fin hi);
                 sampler := Some Float_Uniform |}.
Proof.
  unfold uniform, Float_init. cbn [default from_option id].
  set (d := {| attrs := Float (Fin lo) (Fin hi); sampler := None |}).
  unfold bind at 1.
  change (alloc d st) with (Ok (fresh_loc st), copied st d). cbv iota beta.
  rewrite (Float_uniform_run _ _ d (Fin lo) (Fin hi))
    by (reflexivity || apply lookup_insert_eq).
  cbn [fgt flt negb]. unfold attached. cbn [sampler d sampler_set andb].
  eexists _, _. split; [reflexivity |]. apply lookup_insert_eq.
Qed.



(** ** Quantized uniform draws *)


Lemma round_half_even_between a b x :
  (inject_Z a <= x)%Q -> (x <= inject_Z b)%Q ->
  a <= round_half_even x <= b.
Proof.
  intros Ha Hb.
  pose proof (Qfloor_le x) as Hf. pose proof (Qlt_floor x) as Hc.
  assert (Hfa : a <= Qfloor x).
  { rewrite <- (Qfloor_Z a). now apply Qfloor_resp_le. }
  assert (Hfb : Qfloor x <= b).
  { rewrite <- (Qfloor_Z b). now apply Qfloor_resp_le. }
  unfold round_half_even. set (f := Qfloor x) in *.
  assert (Hup : (1 # 2 <= x - inject_Z f)%Q -> f + 1 <= b).
  { intros Hhalf. assert (Hlt : (inject_Z f < inject_Z b)%Q) by lra.
    rewrite <- Zlt_Qlt in Hlt. lia. }
  destruct (x - inject_Z f ?= 1 # 2)%Q eqn:E.
  - apply Qeq_alt in E. destruct (Z.even f); [lia |].
    split; [lia | apply Hup; lra].
  - lia.
  - apply Qgt_alt in E. split; [lia | apply Hup; lra].
Qed.

Lemma quniform_uniform lo hi q st :
  quniform lo hi q st
  = (self <- uniform lo hi ;; Float_quantized self q) st.
Proof.
  unfold quniform, uniform, bind.
  now destruct (Float_init (Some lo) (Some hi) st) as [[self | e] st1].
Qed.

Lemma quniform_run lo hi q st :
  not_divisible true (Fin lo) (to_float q) = Ok false ->
  not_divisible true (Fin hi) (to_float q) = Ok false ->
  exists new st1,
    quniform (Fin lo) (Fin hi) q st = (Ok new, st1)
    /\ heap st1 !! new
       = Some {| attrs := Float (Fin lo) (Fin hi);
                 sampler := Some (Quantized Float_Uniform q) |}.
Proof.
  intros Hl Hu. rewrite quniform_uniform.
  destruct (uniform_run lo hi st) as (self & st0 & Hrun & Hself).
  rewrite (bind_Ok _ _ _ _ _ Hrun).
  rewrite (Float_quantized_run _ _ _ (Fin lo) (Fin hi) _ Hself)
    by reflexivity.
  cbn [fgt flt]. rewrite Hl, Hu. unfold attached.
  cbn [sampler sampler_set negb andb current_sampler].
  eexists _, _. split; [reflexivity |]. apply lookup_insert_eq.
Qed.

Lemma Float_Uniform_sample_one st self d lo hi spec :
  heap st !! self = Some d -> attrs d = Float (Fin lo) (Fin hi) ->
  Float_Uniform_sample self spec 1 st
  = (Ok (VFloat (Fin (lerp lo hi (next_double (np_random st))))),
     np_drawn next_double 1 st).
Proof.
  intros H Ha. rewrite (Float_Uniform_sample_run _ _ _ _ _ _ _ H Ha).
  unfold bind. rewrite np_random_uniform_run by lia.
  change (Z.to_nat 1) with 1%nat.
  erewrite items_or_scalar_run by exact H.
  cbn [draws fst map len length getitem0].
  change (1 <? Z.of_nat 1) with false. cbv iota.
  unfold cast. now rewrite Ha.
Qed.

Lemma Quantized_sample_scalar (inner : M value) q domain d st v x st' :
  inner st = (Ok v, st') -> float_of_value v = Some x ->
  heap st' !! domain = Some d ->
  Quantized_sample inner q domain st = (cast d (VFloat (quantize q x)), st').
Proof.
  intros Hin Hx H. unfold Quantized_sample.
  rewrite (bind_Ok _ _ _ _ _ Hin), bind_lift.
  destruct v; try discriminate Hx; injection Hx as <-;
    cbn [np_divide np_round np_multiply]; now apply Domain_cast_run.
Qed.

Lemma quantize_0_10_on_grid x :
  (0 <= x)%Q -> (x <= 10)%Q ->
  exists y, quantize (Flt (Fin (5 # 2))) (Fin x) = Fin y /\ In y grid_0_10.
Proof.
  intros H0 H10. unfold quantize. cbn [to_float fdiv].
  change (Qeq_bool (5 # 2) 0) with false. cbv iota.
  cbn [fround of_Z fmul].
  set (r := round_half_even (Qred (x / (5 # 2)))).
  exists (Qred (inject_Z r * (5 # 2))). split; [reflexivity |].
  assert (Hr : 0 <= r <= 4).
  { apply round_half_even_between; rewrite Qred_correct.
    - change (inject_Z 0) with 0%Q. apply Qle_shift_div_l; [reflexivity | lra].
    - change (inject_Z 4) with 4%Q. apply Qle_shift_div_r; [reflexivity | lra]. }
  assert (Hcases : r = 0 \/ r = 1 \/ r = 2 \/ r = 3 \/ r = 4) by lia.
  unfold grid_0_10.
  destruct Hcases as [-> | [-> | [-> | [-> | ->]]]]; cbn; auto 6.
Qed.

(** C6.  From any state, [quniform(0, 10, 2.5)], that is
    [Float(0, 10).uniform().quantized(2.5)], is built, and its
    [sample(size=1)] returns a float that is one of 0, 2.5, 5, 7.5, 10. *)
Theorem quantized_uniform_sample_is_on_the_grid
    (np_log : float -> float) (np_power : float -> float -> float)
    (spec : Spec) (st : State) :
  exists new st1 y st2,
    quniform (Fin 0) (Fin 10) (Flt (Fin (5 # 2))) st = (Ok new, st1)
    /\ Domain_sample np_log np_power new spec 1 st1 = (Ok (VFloat (Fin y)), st2)
    /\ In y grid_0_10.
Proof.
  destruct (quniform_run 0 10 (Flt (Fin (5 # 2))) st)
    as (new & st1 & Hrun & Hnew); [reflexivity | reflexivity |].
  set (x := lerp 0 10 (next_double (np_random st1))).
  assert (Hx : within 0 10 x).
  { destruct (next_double_range (np_random st1)).
    now apply lerp_bounds. }
  destruct Hx as [H0 H10].
  destruct (quantize_0_10_on_grid x H0 H10) as (y & Hy & Hin).
  exists new, st1, y, (np_drawn next_double 1 st1).
  split; [exact Hrun |]. split; [| exact Hin].
  rewrite (Domain_sample_run _ _ _ _ _ _ _ Hnew).
  cbn [current_sampler sampler Sampler_sample].
  match type of Hnew with _ = Some ?d0 => set (d := d0) in Hnew end.
  rewrite (Quantized_sample_scalar _ _ _ d _ (VFloat (Fin x)) (Fin x)
             (np_drawn next_double 1 st1)).
  - rewrite Hy. reflexivity.
  - now apply (Float_Uniform_sample_one _ _ _ 0 10 _ Hnew).
  - reflexivity.
  - exact Hnew.
Qed.

(** ** Float.quantized: the divisibility check *)









(** ** The theorems at concrete inputs *)

(** C3 at [Integer(0, 10)] and [Quantized(Integer._Uniform(), 4)]: three
    draws 5, 2, 9 come back as the floats 4.0, 0.0, 8.0; one draw 5 comes
    back as the int 4. *)
Lemma Quantized_sample_quantizes_what_the_wrapped_sampler_draws_witness :
  let st := snd (Integer_init 0 10 empty_state) in
  let sample :=
    Sampler_sample (fun _ => nan) (fun _ _ => nan)
      (Quantized Integer_Uniform (Int 4)) 1%positive NoSpec in
  fst (sample 3 st) = Ok (VList [VFloat (Fin 4); VFloat (Fin 0); VFloat (Fin 8)])
  /\ fst (sample 1 st) = Ok (VInt 4).
Proof.
  intros st sample. subst sample. split.
  - destruct (Quantized_sample_quantizes_what_the_wrapped_sampler_draws
                (fun _ => nan) (fun _ _ => nan) Integer_Uniform (Int 4)
                1%positive {| attrs := Integer 0 10; sampler := None |}
                NoSpec 3 st) as (_ & _ & _ & Hseq).
    + vm_compute. reflexivity.
    + rewrite (Hseq (VArray (int_array [5; 2; 9])) [of_Z 5; of_Z 2; of_Z 9]).
      * reflexivity.
      * vm_compute. reflexivity.
      * reflexivity.
  - destruct (Quantized_sample_quantizes_what_the_wrapped_sampler_draws
                (fun _ => nan) (fun _ _ => nan) Integer_Uniform (Int 4)
                1%positive {| attrs := Integer 0 10; sampler := None |}
                NoSpec 1 st) as (_ & _ & Hscalar & _).
    + vm_compute. reflexivity.
    + rewrite (Hscalar (VInt 5) (of_Z 5)).
      * reflexivity.
      * vm_compute. reflexivity.
      * reflexivity.
Defined.

(** C4 at [randint(0, 10).sample(size=5)]. *)
Lemma Integer_uniform_sample_excludes_upper_witness :
  exists new st1 zs st2,
    randint 0 10 empty_state = (Ok new, st1)
    /\ Domain_sample (fun _ => nan) (fun _ _ => nan) new NoSpec 5 st1
       = (Ok (VArray (int_array zs)), st2)
    /\ length zs = 5%nat
    /\ Forall (in_half_open 0 10) zs.
Proof.
  destruct (Integer_uniform_sample_excludes_upper
              (fun _ => nan) (fun _ _ => nan) 0 10 NoSpec 5 empty_state)
    as (new & st1 & Hrun & _ & Hreturns).
  destruct Hreturns as (zs & st2 & Hsample & Hlen & Hall).
  - lia.
  - vm_compute. discriminate.
  - vm_compute. discriminate.
  - lia.
  - exists new, st1, zs, st2. repeat split; assumption.
Defined.


(** [Float(0, 9).quantized(3)] succeeds; [Float(1, 10).quantized(3)] fails
    on its lower bound. *)
Example Float_0_9_quantized_3 :
  fst ((self <- Float_init (Some (Fin 0)) (Some (Fin 9)) ;;
        new <- Float_quantized self (Int 3) ;; deref new) empty_state)
  = Ok {| attrs := Float (Fin 0) (Fin 9);
          sampler := Some (Quantized Float_Uniform (Int 3)) |}.
Proof. vm_compute. reflexivity. Qed.

Example Float_1_10_quantized_3 :
  fst ((self <- Float_init (Some (Fin 1)) (Some (Fin 10)) ;;
        Float_quantized self (Int 3)) empty_state)
  = Raise LowerNotDivisible.
Proof. vm_compute. reflexivity. Qed.


(** [qrandint(0, 10, 4)]: a sequence is returned as floats, a single draw as
    an int. *)
Example qrandint_sequence_is_not_cast :
  fst ((self <- qrandint 0 10 (Int 4) ;;
        Domain_sample (fun _ => nan) (fun _ _ => nan) self NoSpec 3)
         empty_state)
  = Ok (VList [VFloat (Fin 4); VFloat (Fin 0); VFloat (Fin 8)]).
Proof. vm_compute. reflexivity. Qed.

Example qrandint_scalar_is_cast :
  fst ((self <- qrandint 0 10 (Int 4) ;;
        Domain_sample (fun _ => nan) (fun _ _ => nan) self NoSpec 1)
         empty_state)
  = Ok (VInt 4).
Proof. vm_compute. reflexivity. Qed.

(** * Further properties *)

(** ** Which generator a computation touches *)

Lemma keeps_ret {A B} (f : State -> B) (a : A) : keeps f (ret a).
Proof. now intros st. Qed.

Lemma keeps_raise {A B} (f : State -> B) e : keeps f (@raise A e).
Proof. now intros st. Qed.

Lemma keeps_lift {A B} (f : State -> B) (r : result A) : keeps f (lift r).
Proof. now intros st. Qed.

Lemma keeps_bind {A A' B} (f : State -> B) (c : M A) (k : A -> M A') :
  keeps f c -> (forall a, keeps f (k a)) -> keeps f (bind c k).
Proof.
  intros Hc Hk st. unfold bind. specialize (Hc st).
  destruct (c st) as [[a | e] st1]; simpl in *.
  - now rewrite Hk.
  - exact Hc.
Qed.

Lemma keeps_deref {B} (f : State -> B) l : keeps f (deref l).
Proof. intros st. unfold deref. now destruct (heap st !! l). Qed.

Lemma keeps_assert {B} (f : State -> B) b e : keeps f (assert b e).
Proof. destruct b; [apply keeps_ret | apply keeps_raise]. Qed.

Lemma keeps_np_store l d : keeps np_random (store l d).
Proof. now intros st. Qed.

Lemma keeps_py_store l d : keeps py_random (store l d).
Proof. now intros st. Qed.

Lemma keeps_np_alloc d : keeps np_random (alloc d).
Proof. now intros st. Qed.

Lemma keeps_py_alloc d : keeps py_random (alloc d).
Proof. now intros st. Qed.

Lemma keeps_py_np_draws {A} (g : RandomState -> A) n :
  keeps py_random (np_draws g n).
Proof. intros st. unfold np_draws. now destruct (draws g n (np_random st)). Qed.

Lemma keeps_np_py_draws {A} (g : RandomState -> A) n :
  keeps np_random (py_draws g n).
Proof. intros st. unfold py_draws. now destruct (draws g n (py_random st)). Qed.

Create HintDb keeps.
#[local] Hint Resolve keeps_ret keeps_raise keeps_lift keeps_deref
  keeps_assert keeps_np_store keeps_py_store keeps_np_alloc keeps_py_alloc
  keeps_py_np_draws keeps_np_py_draws : keeps.

Ltac keeps_step :=
  lazymatch goal with
  | |- keeps _ (bind _ _) => apply keeps_bind; [| intros ?]
  | |- keeps _ (if ?b then _ else _) => destruct b
  | |- keeps _ (match ?x with _ => _ end) => destruct x
  | |- keeps _ (let _ := _ in _) => cbv zeta
  | |- keeps _ _ => solve [auto with keeps]
  end.

Ltac keeps_all := repeat keeps_step.

Lemma keeps_np_copy self : keeps np_random (copy self).
Proof. unfold copy. keeps_all. Qed.

Lemma keeps_py_copy self : keeps py_random (copy self).
Proof. unfold copy. keeps_all. Qed.

Lemma keeps_np_set_sampler self s o : keeps np_random (set_sampler self s o).
Proof. unfold set_sampler. keeps_all. Qed.

Lemma keeps_py_set_sampler self s o : keeps py_random (set_sampler self s o).
Proof. unfold set_sampler. keeps_all. Qed.

Lemma keeps_get_sampler {B} (f : State -> B) self : keeps f (get_sampler self).
Proof. unfold get_sampler. keeps_all. Qed.

Lemma keeps_Domain_cast {B} (f : State -> B) self v :
  keeps f (Domain_cast self v).
Proof. unfold Domain_cast. keeps_all. Qed.

Lemma keeps_loguniform_bounds {B} (f : State -> B) self :
  keeps f (loguniform_bounds self).
Proof. unfold loguniform_bounds. keeps_all. Qed.

#[local] Hint Resolve keeps_np_copy keeps_py_copy keeps_np_set_sampler
  keeps_py_set_sampler keeps_get_sampler keeps_Domain_cast
  keeps_loguniform_bounds : keeps.

Lemma keeps_np_call b self : keeps np_random (call b self).
Proof.
  unfold call, Float_uniform, Float_loguniform, Float_normal,
    Float_quantized, Integer_uniform, Integer_loguniform, Integer_quantized,
    Categorical_uniform.
  keeps_all.
Qed.

Lemma keeps_py_call b self : keeps py_random (call b self).
Proof.
  unfold call, Float_uniform, Float_loguniform, Float_normal,
    Float_quantized, Integer_uniform, Integer_loguniform, Integer_quantized,
    Categorical_uniform.
  keeps_all.
Qed.

Lemma keeps_py_np_random_uniform low high size :
  keeps py_random (np_random_uniform low high size).
Proof. unfold np_random_uniform. keeps_all. Qed.

Lemma keeps_py_np_random_randint low high size :
  keeps py_random (np_random_randint low high size).
Proof. unfold np_random_randint. keeps_all. Qed.

Lemma keeps_py_np_random_normal loc scale size :
  keeps py_random (np_random_normal loc scale size).
Proof. unfold np_random_normal. keeps_all. Qed.

Lemma keeps_np_random_choices population k :
  keeps np_random (random_choices population k).
Proof. unfold random_choices. keeps_all. Qed.

Lemma keeps_items_or_scalar {B} (f : State -> B) domain items :
  keeps f (items_or_scalar domain items).
Proof. unfold items_or_scalar. keeps_all. Qed.

#[local] Hint Resolve keeps_py_np_random_uniform keeps_py_np_random_randint
  keeps_py_np_random_normal keeps_np_random_choices keeps_items_or_scalar
  : keeps.

Section Generators.

Variable np_log : float -> float.
Variable np_power : float -> float -> float.

Lemma keeps_py_LogUniform_draw base domain size :
  keeps py_random (LogUniform_draw np_log np_power base domain size).
Proof. unfold LogUniform_draw. keeps_all. Qed.

Lemma keeps_Quantized_sample {B} (f : State -> B) inner q domain :
  keeps f inner -> keeps f (Quantized_sample inner q domain).
Proof. intros H. unfold Quantized_sample. keeps_all. Qed.

Lemma keeps_py_Sampler_sample s domain spec size :
  draws_from_random s = false ->
  keeps py_random (Sampler_sample np_log np_power s domain spec size).
Proof.
  induction s; cbn [draws_from_random Sampler_sample]; intros Hs;
    try discriminate Hs;
    try (apply keeps_Quantized_sample; now apply IHs);
    unfold Float_Uniform_sample, Float_LogUniform_sample, Float_Normal_sample,
      Integer_Uniform_sample, Integer_LogUniform_sample;
    pose proof keeps_py_LogUniform_draw; keeps_all.
Qed.

Lemma keeps_np_Sampler_sample s domain spec size :
  draws_from_numpy s = false ->
  keeps np_random (Sampler_sample np_log np_power s domain spec size).
Proof.
  induction s; cbn [draws_from_numpy Sampler_sample]; intros Hs;
    try discriminate Hs;
    try (apply keeps_Quantized_sample; now apply IHs);
    unfold Categorical_Uniform_sample; keeps_all.
Qed.

End Generators.

(** X1.  Each sampler draws from one generator only: the samplers of Float
    and Integer (and [Quantized] around them) leave the generator of Python's
    [random] module as it was, and the sampler of Categorical (and
    [Quantized] around it) leaves numpy's generator as it was.  The builder
    methods draw from neither. *)
Theorem a_sampler_draws_from_one_generator
    (np_log : float -> float) (np_power : float -> float -> float)
    (s : Sampler) (b : builder) (domain : loc) (spec : Spec) (size : Z)
    (st : State) :
  (draws_from_random s = false ->
   py_random (snd (Sampler_sample np_log np_power s domain spec size st))
   = py_random st)
  /\ (draws_from_numpy s = false ->
      np_random (snd (Sampler_sample np_log np_power s domain spec size st))
      = np_random st)
  /\ same_generators (snd (call b domain st)) st.
Proof.
  split; [| split].
  - intros Hs. now apply keeps_py_Sampler_sample.
  - intros Hs. now apply keeps_np_Sampler_sample.
  - split; [apply keeps_np_call | apply keeps_py_call].
Qed.

(** X1 at [choice([1, 2, 3])] and at [randint(0, 10)], three draws each. *)
Lemma a_sampler_draws_from_one_generator_witness :
  let st1 := snd (choice [VInt 1; VInt 2; VInt 3] empty_state) in
  let st2 := snd (randint 0 10 empty_state) in
  np_random
    (snd (Sampler_sample (fun _ => nan) (fun _ _ => nan) Categorical_Uniform
            2%positive NoSpec 3 st1))
  = np_random st1
  /\ py_random
       (snd (Sampler_sample (fun _ => nan) (fun _ _ => nan) Integer_Uniform
               2%positive NoSpec 3 st2))
     = py_random st2.
Proof.
  intros st1 st2. split.
  - apply (a_sampler_draws_from_one_generator
             (fun _ => nan) (fun _ _ => nan) Categorical_Uniform call_uniform
             2%positive NoSpec 3 st1); reflexivity.
  - apply (a_sampler_draws_from_one_generator
             (fun _ => nan) (fun _ _ => nan) Integer_Uniform call_uniform
             2%positive NoSpec 3 st2); reflexivity.
Defined.

(** ** Sampling looks at the attributes and the generators only *)

Lemma agree_same {A} l1 l2 d1 d2 (c : M A) :
  (forall st, heap (snd (c st)) = heap st) ->
  (forall st1 st2,
     same_generators st1 st2 ->
     fst (c st1) = fst (c st2) /\ same_generators (snd (c st1)) (snd (c st2))) ->
  agree l1 l2 d1 d2 c c.
Proof.
  intros Hheap Hsame st1 st2 _ _ Hg.
  destruct (Hsame st1 st2 Hg) as [Hr Hg'].
  split; [exact Hr |]. split; [exact Hg' |]. split; apply Hheap.
Qed.

Lemma agree_ret {A} l1 l2 d1 d2 (a : A) : agree l1 l2 d1 d2 (ret a) (ret a).
Proof. apply agree_same; [now intros st | now intros st1 st2 Hg]. Qed.

Lemma agree_raise {A} l1 l2 d1 d2 e :
  agree l1 l2 d1 d2 (@raise A e) (raise e).
Proof. apply agree_same; [now intros st | now intros st1 st2 Hg]. Qed.

Lemma agree_lift {A} l1 l2 d1 d2 (r : result A) :
  agree l1 l2 d1 d2 (lift r) (lift r).
Proof. apply agree_same; [now intros st | now intros st1 st2 Hg]. Qed.

Lemma agree_assert l1 l2 d1 d2 b e :
  agree l1 l2 d1 d2 (assert b e) (assert b e).
Proof. destruct b; [apply agree_ret | apply agree_raise]. Qed.

Lemma agree_bind {A B} l1 l2 d1 d2 (c1 c2 : M A) (k1 k2 : A -> M B) :
  agree l1 l2 d1 d2 c1 c2 ->
  (forall a, agree l1 l2 d1 d2 (k1 a) (k2 a)) ->
  agree l1 l2 d1 d2 (bind c1 k1) (bind c2 k2).
Proof.
  intros Hc Hk st1 st2 H1 H2 Hg. unfold bind.
  destruct (Hc st1 st2 H1 H2 Hg) as (Hr & Hg' & Hh1 & Hh2).
  destruct (c1 st1) as [[a1 | e1] st1'], (c2 st2) as [[a2 | e2] st2'];
    cbn [fst snd] in *; try discriminate Hr.
  - injection Hr as <-.
    rewrite <- Hh1 in H1. rewrite <- Hh2 in H2.
    destruct (Hk a1 st1' st2' H1 H2 Hg') as (Hr' & Hg'' & Hh1' & Hh2').
    repeat split; try apply Hg''; congruence.
  - injection Hr as <-. repeat split; try apply Hg'; assumption.
Qed.

Lemma agree_deref {B} l1 l2 d1 d2 (k1 k2 : Domain -> M B) :
  agree l1 l2 d1 d2 (k1 d1) (k2 d2) ->
  agree l1 l2 d1 d2 (bind (deref l1) k1) (bind (deref l2) k2).
Proof.
  intros Hk st1 st2 H1 H2 Hg.
  rewrite (bind_deref _ _ _ _ H1), (bind_deref _ _ _ _ H2).
  now apply Hk.
Qed.

Lemma agree_np_draws {A} l1 l2 d1 d2 (g : RandomState -> A) n :
  agree l1 l2 d1 d2 (np_draws g n) (np_draws g n).
Proof.
  apply agree_same; [apply preserves_np_draws |].
  intros st1 st2 [Hn Hp]. rewrite !np_draws_run. unfold np_drawn.
  cbn [fst snd]. rewrite Hn. repeat split; assumption.
Qed.

Lemma agree_py_draws {A} l1 l2 d1 d2 (g : RandomState -> A) n :
  agree l1 l2 d1 d2 (py_draws g n) (py_draws g n).
Proof.
  apply agree_same; [apply preserves_py_draws |].
  intros st1 st2 [Hn Hp]. unfold py_draws. rewrite Hp.
  destruct (draws g n (py_random st2)). repeat split; assumption.
Qed.

Create HintDb agree.
#[local] Hint Resolve agree_ret agree_raise agree_lift agree_assert
  agree_np_draws agree_py_draws : agree.

Ltac agree_step :=
  lazymatch goal with
  | |- agree _ _ _ _ (bind (deref _) _) (bind (deref _) _) =>
      apply agree_deref
  | |- agree _ _ _ _ (bind _ _) (bind _ _) => apply agree_bind; [| intros ?]
  | |- agree _ _ _ _ (if ?b then _ else _) _ => destruct b
  | |- agree _ _ _ _ (match ?x with _ => _ end) _ => destruct x
  | |- agree _ _ _ _ (let _ := _ in _) _ => cbv zeta
  | |- agree _ _ _ _ _ _ => solve [auto with agree]
  end.

Ltac agree_all := repeat agree_step.

Lemma agree_np_random_uniform l1 l2 d1 d2 low high size :
  agree l1 l2 d1 d2 (np_random_uniform low high size)
    (np_random_uniform low high size).
Proof. unfold np_random_uniform. agree_all. Qed.

Lemma agree_np_random_randint l1 l2 d1 d2 low high size :
  agree l1 l2 d1 d2 (np_random_randint low high size)
    (np_random_randint low high size).
Proof. unfold np_random_randint. agree_all. Qed.

Lemma agree_np_random_normal l1 l2 d1 d2 loc scale size :
  agree l1 l2 d1 d2 (np_random_normal loc scale size)
    (np_random_normal loc scale size).
Proof. unfold np_random_normal. agree_all. Qed.

Lemma agree_random_choices l1 l2 d1 d2 population k :
  agree l1 l2 d1 d2 (random_choices population k)
    (random_choices population k).
Proof. unfold random_choices. agree_all. Qed.

#[local] Hint Resolve agree_np_random_uniform agree_np_random_randint
  agree_np_random_normal agree_random_choices : agree.

Section Agree.

Variable np_log : float -> float.
Variable np_power : float -> float -> float.
Variables l1 l2 : loc.
Variables d1 d2 : Domain.
Hypothesis same_attrs : attrs d1 = attrs d2.

Lemma get_lower_same : get_lower d1 = get_lower d2.
Proof. unfold get_lower. now rewrite same_attrs. Qed.

Lemma get_upper_same : get_upper d1 = get_upper d2.
Proof. unfold get_upper. now rewrite same_attrs. Qed.

Lemma get_categories_same : get_categories d1 = get_categories d2.
Proof. unfold get_categories. now rewrite same_attrs. Qed.

Lemma cast_same v : cast d1 v = cast d2 v.
Proof. unfold cast. now rewrite same_attrs. Qed.

Lemma agree_Domain_cast v :
  agree l1 l2 d1 d2 (Domain_cast l1 v) (Domain_cast l2 v).
Proof.
  unfold Domain_cast. apply agree_deref. rewrite cast_same. apply agree_lift.
Qed.

Lemma agree_items_or_scalar items :
  agree l1 l2 d1 d2 (items_or_scalar l1 items) (items_or_scalar l2 items).
Proof.
  unfold items_or_scalar. pose proof agree_Domain_cast. agree_all.
Qed.

Lemma agree_LogUniform_draw base size :
  agree l1 l2 d1 d2 (LogUniform_draw np_log np_power base l1 size)
    (LogUniform_draw np_log np_power base l2 size).
Proof.
  unfold LogUniform_draw. apply agree_deref.
  rewrite get_lower_same, get_upper_same. agree_all.
Qed.

Lemma agree_Sampler_sample s spec size :
  agree l1 l2 d1 d2 (Sampler_sample np_log np_power s l1 spec size)
    (Sampler_sample np_log np_power s l2 spec size).
Proof.
  pose proof agree_Domain_cast. pose proof agree_items_or_scalar.
  pose proof agree_LogUniform_draw.
  induction s; cbn [Sampler_sample];
    unfold Float_Uniform_sample, Float_LogUniform_sample, Float_Normal_sample,
      Integer_Uniform_sample, Integer_LogUniform_sample,
      Categorical_Uniform_sample, Quantized_sample;
    try apply agree_deref;
    rewrite ?get_lower_same, ?get_upper_same, ?get_categories_same;
    agree_all.
Qed.

End Agree.

Lemma Domain_sample_agree np_log np_power l1 l2 d1 d2 spec size st1 st2 :
  heap st1 !! l1 = Some d1 -> heap st2 !! l2 = Some d2 ->
  attrs d1 = attrs d2 -> current_sampler d1 = current_sampler d2 ->
  same_generators st1 st2 ->
  fst (Domain_sample np_log np_power l1 spec size st1)
  = fst (Domain_sample np_log np_power l2 spec size st2)
  /\ same_generators
       (snd (Domain_sample np_log np_power l1 spec size st1))
       (snd (Domain_sample np_log np_power l2 spec size st2)).
Proof.
  intros H1 H2 Ha Hs Hg.
  rewrite (Domain_sample_run _ _ _ _ _ _ _ H1),
    (Domain_sample_run _ _ _ _ _ _ _ H2), Hs.
  destruct (agree_Sampler_sample np_log np_power l1 l2 d1 d2 Ha
              (current_sampler d2) spec size st1 st2 H1 H2 Hg)
    as (Hr & Hg' & _).
  now split.
Qed.

(** X2.  What [sample] returns depends on the attributes of the domain
    (bounds or categories), on its sampler (no sampler counting as the
    uniform sampler of the class) and on the state of the generators, and on
    nothing else: two domain objects that agree on these, sampled from
    generators in the same state, return the same value (or raise the same
    error) and leave the generators in the same state. *)
Theorem sample_depends_on_attributes_sampler_and_generators
    (np_log : float -> float) (np_power : float -> float -> float)
    (l1 l2 : loc) (d1 d2 : Domain) (spec : Spec) (size : Z)
    (st1 st2 : State) :
  heap st1 !! l1 = Some d1 ->
  heap st2 !! l2 = Some d2 ->
  attrs d1 = attrs d2 ->
  current_sampler d1 = current_sampler d2 ->
  same_generators st1 st2 ->
  fst (Domain_sample np_log np_power l1 spec size st1)
  = fst (Domain_sample np_log np_power l2 spec size st2)
  /\ same_generators
       (snd (Domain_sample np_log np_power l1 spec size st1))
       (snd (Domain_sample np_log np_power l2 spec size st2)).
Proof. apply Domain_sample_agree. Qed.

(** X2 at two [Integer(0, 10)] objects of one heap, the second with the
    uniform sampler attached. *)
Lemma sample_depends_on_attributes_sampler_and_generators_witness :
  let st := snd (randint 0 10 empty_state) in
  fst (Domain_sample (fun _ => nan) (fun _ _ => nan) 1%positive NoSpec 4 st)
  = fst (Domain_sample (fun _ => nan) (fun _ _ => nan) 2%positive NoSpec 4 st).
Proof.
  intros st.
  apply (sample_depends_on_attributes_sampler_and_generators
           (fun _ => nan) (fun _ _ => nan) 1%positive 2%positive
           {| attrs := Integer 0 10; sampler := None |}
           {| attrs := Integer 0 10; sampler := Some Integer_Uniform |}
           NoSpec 4 st st).
  - vm_compute. reflexivity.
  - vm_compute. reflexivity.
  - reflexivity.
  - reflexivity.
  - split; reflexivity.
Defined.

(** X3.  A domain without a sampler samples as its [uniform()] copy does:
    when [self.uniform()] returns a domain, [sample] on it and [sample] on
    [self] return the same value and leave the generators in the same
    state. *)
Theorem sample_without_a_sampler_is_uniform
    (np_log : float -> float) (np_power : float -> float -> float)
    (self new : loc) (d : Domain) (spec : Spec) (size : Z)
    (st st' : State) :
  heap st !! self = Some d ->
  sampler d = None ->
  call call_uniform self st = (Ok new, st') ->
  fst (Domain_sample np_log np_power new spec size st')
  = fst (Domain_sample np_log np_power self spec size st)
  /\ same_generators
       (snd (Domain_sample np_log np_power new spec size st'))
       (snd (Domain_sample np_log np_power self spec size st)).
Proof.
  intros H Hs Hcall.
  destruct (built_call call_uniform _ _ _ H) as [_ Hnew].
  rewrite Hcall in Hnew. destruct (Hnew new eq_refl) as [_ Hlook].
  cbn [snd attached_by] in Hlook.
  apply (Domain_sample_agree _ _ _ _ _ _ _ _ _ _ Hlook H).
  - reflexivity.
  - unfold current_sampler. cbn [with_sampler sampler]. now rewrite Hs.
  - pose proof (keeps_np_call call_uniform self st) as Hn.
    pose proof (keeps_py_call call_uniform self st) as Hp.
    rewrite Hcall in Hn, Hp. now split.
Qed.

(** X3 at [Integer(0, 10)]. *)
Lemma sample_without_a_sampler_is_uniform_witness :
  let st := snd (Integer_init 0 10 empty_state) in
  fst (Domain_sample (fun _ => nan) (fun _ _ => nan) 2%positive NoSpec 4
         (snd (call call_uniform 1%positive st)))
  = fst (Domain_sample (fun _ => nan) (fun _ _ => nan) 1%positive NoSpec 4 st).
Proof.
  intros st.
  apply (sample_without_a_sampler_is_uniform
           (fun _ => nan) (fun _ _ => nan) 1%positive 2%positive
           {| attrs := Integer 0 10; sampler := None |} NoSpec 4 st
           (snd (call call_uniform 1%positive st))).
  - vm_compute. reflexivity.
  - reflexivity.
  - vm_compute. reflexivity.
Defined.

(** ** The builders validate before they copy *)

(** X4.  [Float.uniform()] returns a domain exactly when the lower bound is
    above [-inf], the upper bound is below [+inf] and no sampler is attached.
    A missing lower bound raises the "requires a lower bound" error, a
    missing upper bound (the lower one being there) the "requires a upper
    bound" error, and in both cases the state is left as it was: no copy is
    made. *)
Theorem Float_uniform_needs_both_bounds
    (st : State) (self : loc) (d : Domain) (lower upper : float) :
  heap st !! self = Some d ->
  attrs d = Float lower upper ->
  ((exists new st', Float_uniform self st = (Ok new, st'))
   <-> fgt lower neg_inf = true /\ flt upper inf = true /\ sampler d = None)
  /\ (fgt lower neg_inf = false ->
      Float_uniform self st = (Raise UniformNeedsLower, st))
  /\ (fgt lower neg_inf = true -> flt upper inf = false ->
      Float_uniform self st = (Raise UniformNeedsUpper, st)).
Proof.
  intros H Ha. rewrite (Float_uniform_run _ _ _ _ _ H Ha). unfold attached.
  destruct (fgt lower neg_inf), (flt upper inf), (sampler d);
    cbn [negb sampler_set andb]; (split; [split |]);
    try (intros (new & st' & Hr); discriminate Hr);
    try (intros (H1 & H2 & H3); discriminate);
    try (split; [discriminate || reflexivity | intros; discriminate || reflexivity]);
    try (intros _; eexists _, _; reflexivity);
    try (repeat split; reflexivity).
Qed.

(** X4 at [Float(None, 10)]: the lower bound is missing. *)
Lemma Float_uniform_needs_both_bounds_witness :
  let st := snd (Float_init None (Some (Fin 10)) empty_state) in
  Float_uniform 1%positive st = (Raise UniformNeedsLower, st).
Proof.
  intros st.
  apply (Float_uniform_needs_both_bounds st 1%positive
           {| attrs := Float neg_inf (Fin 10); sampler := None |}
           neg_inf (Fin 10)).
  - vm_compute. reflexivity.
  - reflexivity.
  - reflexivity.
Defined.

(** X5.  [loguniform(base)], of Float and of Integer, returns a domain
    exactly when the lower bound is above zero, the upper bound is above zero
    and below [+inf], the base is above zero and no sampler is attached.  A
    lower bound that is not above zero raises the "lower bound greater than
    0" error, and an upper bound out of range (the lower one being fine) the
    "upper bound greater than 0" error; in both cases the state is left as it
    was. *)
Theorem loguniform_needs_positive_bounds
    (st : State) (self : loc) (d : Domain) (lower upper : num)
    (base : float) :
  heap st !! self = Some d ->
  get_lower d = Ok lower ->
  get_upper d = Ok upper ->
  ((exists new st', call (call_loguniform base) self st = (Ok new, st'))
   <-> fgt (to_float lower) (Fin 0) = true
       /\ flt (Fin 0) (to_float upper) && flt (to_float upper) inf = true
       /\ fgt base (Fin 0) = true
       /\ sampler d = None)
  /\ (fgt (to_float lower) (Fin 0) = false ->
      call (call_loguniform base) self st = (Raise LogUniformNeedsLower, st))
  /\ (fgt (to_float lower) (Fin 0) = true ->
      flt (Fin 0) (to_float upper) && flt (to_float upper) inf = false ->
      call (call_loguniform base) self st = (Raise LogUniformNeedsUpper, st)).
Proof.
  intros H Hl Hu.
  assert (Hrun : exists mk,
    call (call_loguniform base) self st
    = if negb (fgt (to_float lower) (Fin 0))
      then (Raise LogUniformNeedsLower, st)
      else if negb (flt (Fin 0) (to_float upper) && flt (to_float upper) inf)
      then (Raise LogUniformNeedsUpper, st)
      else match LogUniform_init mk base with
           | Ok s => attached st d s false
           | Raise e => (Raise e, copied st d)
           end).
  { unfold call. rewrite (bind_deref _ _ _ _ H).
    destruct (attrs d) as [lo hi | lo hi | cs] eqn:Ha.
    - exists Float_LogUniform. unfold Float_loguniform.
      now apply loguniform_run.
    - exists Integer_LogUniform. unfold Integer_loguniform.
      now apply loguniform_run.
    - unfold get_lower in Hl. rewrite Ha in Hl. discriminate Hl. }
  destruct Hrun as [mk ->]. unfold LogUniform_init, attached.
  destruct (fgt (to_float lower) (Fin 0)),
    (flt (Fin 0) (to_float upper) && flt (to_float upper) inf),
    (fgt base (Fin 0)), (sampler d);
    cbn [negb sampler_set andb]; (split; [split |]);
    try (intros (new & st' & Hr); discriminate Hr);
    try (intros (H1 & H2 & H3 & H4); discriminate);
    try (split; [discriminate || reflexivity | intros; discriminate || reflexivity]);
    try (intros _; eexists _, _; reflexivity);
    try (repeat split; reflexivity).
Qed.

(** X5 at [Integer(0, 10)]: zero is not a lower bound for [loguniform]. *)
Lemma loguniform_needs_positive_bounds_witness :
  let st := snd (Integer_init 0 10 empty_state) in
  call (call_loguniform (Fin 10)) 1%positive st
  = (Raise LogUniformNeedsLower, st).
Proof.
  intros st.
  apply (loguniform_needs_positive_bounds st 1%positive
           {| attrs := Integer 0 10; sampler := None |} (Int 0) (Int 10)
           (Fin 10)).
  - vm_compute. reflexivity.
  - reflexivity.
  - reflexivity.
  - reflexivity.
Defined.

(** ** is_grid, set_sampler and get_sampler *)

Lemma is_grid_run st self d :
  heap st !! self = Some d ->
  is_grid self st
  = (Ok match sampler d with
        | Some Grid => true
        | _ => false
        end, st).
Proof. intros H. unfold is_grid. now rewrite (bind_deref _ _ _ _ H). Qed.

(** X6.  No builder returns a grid domain: on whatever a call of [uniform],
    [loguniform], [normal] or [quantized] returns, [is_grid()] is false, also
    when the receiver was a grid domain (then [quantized] has wrapped the
    [Grid] sampler, and [is_grid] looks at the outermost sampler only). *)
Theorem builders_never_return_a_grid_domain
    (b : builder) (st st' : State) (self new : loc) (d : Domain) :
  heap st !! self = Some d ->
  call b self st = (Ok new, st') ->
  is_grid new st' = (Ok false, st').
Proof.
  intros H Hcall.
  destruct (built_call b _ _ _ H) as [_ Hnew].
  rewrite Hcall in Hnew. destruct (Hnew new eq_refl) as [_ Hlook].
  cbn [snd] in Hlook. rewrite (is_grid_run _ _ _ Hlook).
  cbn [with_sampler sampler]. f_equal. f_equal.
  destruct b; cbn [attached_by]; unfold default_sampler_cls;
    destruct (attrs d); reflexivity.
Qed.

(** X6 at a grid domain on [Integer(0, 10)] and [quantized(2)]. *)
Lemma builders_never_return_a_grid_domain_witness :
  let st :=
    snd ((self <- Integer_init 0 10 ;; set_sampler self Grid false)
           empty_state) in
  is_grid 1%positive st = (Ok true, st)
  /\ is_grid 2%positive (snd (call (call_quantized (Int 2)) 1%positive st))
     = (Ok false, snd (call (call_quantized (Int 2)) 1%positive st)).
Proof.
  intros st. split; [vm_compute; reflexivity |].
  apply (builders_never_return_a_grid_domain (call_quantized (Int 2)) st _
           1%positive 2%positive
           {| attrs := Integer 0 10; sampler := Some Grid |}).
  - vm_compute. reflexivity.
  - vm_compute. reflexivity.
Defined.

(** X7.  [set_sampler] succeeds exactly when the domain has no sampler or
    the override flag is given; then [get_sampler] returns the sampler that
    was set, the attributes of the domain are what they were, and no other
    object is touched. *)
Theorem get_sampler_returns_what_set_sampler_set
    (st : State) (self : loc) (d : Domain) (s : Sampler)
    (allow_override : bool) :
  heap st !! self = Some d ->
  ((exists st', set_sampler self s allow_override st = (Ok tt, st'))
   <-> sampler d = None \/ allow_override = true)
  /\ (forall st',
        set_sampler self s allow_override st = (Ok tt, st') ->
        get_sampler self st' = (Ok s, st')
        /\ heap st' !! self = Some {| attrs := attrs d; sampler := Some s |}
        /\ (forall l, l <> self -> heap st' !! l = heap st !! l)
        /\ same_generators st' st).
Proof.
  intros H. rewrite (set_sampler_run _ _ _ _ _ H). split.
  - destruct (sampler d), allow_override; cbn [sampler_set negb andb]; split;
      try (intros _; eexists; reflexivity);
      try (intros [st' Hr]; discriminate Hr);
      try (intros _; now left); try (intros _; now right).
    intros [Hn | Hn]; discriminate Hn.
  - intros st'.
    destruct (sampler_set (sampler d) && negb allow_override);
      [discriminate |].
    intros [= <-].
    assert (Hlook : heap (set_heap (<[self := with_sampler d s]> (heap st)) st)
                    !! self = Some (with_sampler d s))
      by apply lookup_insert_eq.
    split; [now rewrite (get_sampler_run _ _ _ Hlook) |].
    split; [exact Hlook |]. split; [| split; reflexivity].
    intros l Hne. cbn [heap set_heap]. now apply lookup_insert_ne.
Qed.

(** X7 at [Float(0, 1)] and a Normal sampler. *)
Lemma get_sampler_returns_what_set_sampler_set_witness :
  let st := snd (Float_init (Some (Fin 0)) (Some (Fin 1)) empty_state) in
  (self <- ret 1%positive ;;
   do set_sampler self (Float_Normal (Fin 0) (Fin 1)) false ;;
   get_sampler self) st
  = (Ok (Float_Normal (Fin 0) (Fin 1)),
     snd (set_sampler 1%positive (Float_Normal (Fin 0) (Fin 1)) false st)).
Proof.
  intros st.
  destruct (get_sampler_returns_what_set_sampler_set st 1%positive
              {| attrs := Float (Fin 0) (Fin 1); sampler := None |}
              (Float_Normal (Fin 0) (Fin 1)) false) as [_ Hget].
  - vm_compute. reflexivity.
  - destruct (Hget (snd (set_sampler 1%positive
                           (Float_Normal (Fin 0) (Fin 1)) false st)))
      as [Hg _].
    + vm_compute. reflexivity.
    + unfold bind, ret.
      replace (set_sampler 1%positive (Float_Normal (Fin 0) (Fin 1)) false st)
        with (Ok tt, snd (set_sampler 1%positive
                            (Float_Normal (Fin 0) (Fin 1)) false st))
        by (vm_compute; reflexivity).
      exact Hg.
Defined.

(** ** Categorical *)

Lemma py_draws_run {A} (f : RandomState -> A) n st :
  py_draws f n st = (Ok (fst (draws f n (py_random st))), py_drawn f n st).
Proof.
  unfold py_draws, py_drawn. now destruct (draws f n (py_random st)).
Qed.

Lemma choice_run categories st :
  exists new st1,
    choice categories st = (Ok new, st1)
    /\ heap st1 !! new
       = Some {| attrs := Categorical categories;
                 sampler := Some Categorical_Uniform |}.
Proof.
  unfold choice, Categorical_init.
  set (d := {| attrs := Categorical categories; sampler := None |}).
  unfold bind at 1.
  change (alloc d st) with (Ok (fresh_loc st), copied st d). cbv iota beta.
  unfold Categorical_uniform.
  rewrite (attach_only_run _ _ d) by apply lookup_insert_eq.
  unfold attached. cbn [sampler d sampler_set andb].
  eexists _, _. split; [reflexivity |]. apply lookup_insert_eq.
Qed.

Lemma pick_in_population (population : list value) x0 u :
  population <> [] -> (0 <= u)%Q -> (u < 1)%Q ->
  In (nth (Z.to_nat
             (Qfloor (u * inject_Z (Z.of_nat (length population)))))
        population x0) population.
Proof.
  intros Hne H0 H1. apply nth_In.
  set (n := Z.of_nat (length population)).
  assert (Hn : 0 < n)
    by (destruct population; [contradiction | unfold n; cbn [length]; lia]).
  assert (HnQ : (inject_Z 0 < inject_Z n)%Q) by (now rewrite <- Zlt_Qlt).
  change (inject_Z 0) with 0%Q in HnQ.
  assert (Hlo : (0 <= u * inject_Z n)%Q)
    by (apply Qmult_le_0_compat; [exact H0 | now apply Qlt_le_weak]).
  assert (Hhi : (u * inject_Z n < inject_Z n)%Q).
  { rewrite <- (Qmult_1_l (inject_Z n)) at 2.
    now apply Qmult_lt_compat_r. }
  assert (Hf0 : 0 <= Qfloor (u * inject_Z n)).
  { rewrite <- (Qfloor_Z 0). now apply Qfloor_resp_le. }
  assert (Hf1 : Qfloor (u * inject_Z n) < n).
  { rewrite Zlt_Qlt. eapply Qle_lt_trans; [apply Qfloor_le | exact Hhi]. }
  subst n. lia.
Qed.

Lemma random_choices_run x0 population k st :
  1 <= k ->
  random_choices (x0 :: population) k st
  = (Ok (map (fun u =>
                nth (Z.to_nat
                       (Qfloor (u * inject_Z
                                      (Z.of_nat (length (x0 :: population))))))
                  (x0 :: population) x0)
           (fst (draws next_double (Z.to_nat k) (py_random st)))),
     py_drawn next_double (Z.to_nat k) st).
Proof.
  intros Hk. unfold random_choices.
  replace (k <=? 0) with false by (symmetry; apply Z.leb_gt; lia).
  unfold bind. now rewrite py_draws_run.
Qed.

Lemma Categorical_Uniform_sample_run st self d categories spec size :
  heap st !! self = Some d -> attrs d = Categorical categories ->
  Categorical_Uniform_sample self spec size st
  = (items <- random_choices categories size ;;
     if 1 <? Z.of_nat (length items) then ret (VList items)
     else match items with
          | x :: _ => Domain_cast self x
          | [] => raise IndexError
          end) st.
Proof.
  intros H Ha. unfold Categorical_Uniform_sample.
  rewrite (bind_deref _ _ _ _ H), bind_lift.
  unfold get_categories. now rewrite Ha.
Qed.

(** X8.  For [choice(categories)], that is
    [Categorical(categories).uniform()], with at least one category, and
    [size >= 1]: [sample] returns, for [size = 1] one of the categories as it
    is, for [size > 1] a list of exactly [size] items, each of them one of
    the categories. *)
Theorem choice_sample_returns_categories
    (np_log : float -> float) (np_power : float -> float -> float)
    (categories : list value) (spec : Spec) (size : Z) (st : State) :
  categories <> [] ->
  1 <= size ->
  exists new st1 items st2,
    choice categories st = (Ok new, st1)
    /\ Domain_sample np_log np_power new spec size st1
       = (Ok (if size =? 1 then hd VNone items else VList items), st2)
    /\ length items = Z.to_nat size
    /\ Forall (fun x => In x categories) items.
Proof.
  intros Hne Hsize.
  destruct (choice_run categories st) as (new & st1 & Hrun & Hnew).
  destruct categories as [| x0 population]; [contradiction |].
  set (cs := x0 :: population) in *.
  set (items :=
         map (fun u =>
                nth (Z.to_nat (Qfloor (u * inject_Z (Z.of_nat (length cs)))))
                  cs x0)
           (fst (draws next_double (Z.to_nat size) (py_random st1)))).
  assert (Hlen : length items = Z.to_nat size)
    by (unfold items; now rewrite length_map, draws_length).
  exists new, st1, items, (py_drawn next_double (Z.to_nat size) st1).
  split; [exact Hrun |]. split; [| split; [exact Hlen |]].
  - rewrite (Domain_sample_run _ _ _ _ _ _ _ Hnew).
    cbn [current_sampler sampler Sampler_sample].
    rewrite (Categorical_Uniform_sample_run _ _ _ cs _ _ Hnew) by reflexivity.
    unfold bind. unfold cs at 1. rewrite random_choices_run by exact Hsize.
    fold cs. fold items. rewrite Hlen, Z2Nat.id by lia.
    destruct (Z.eqb_spec size 1) as [-> | Hne1].
    + destruct items as [| x items']; [discriminate Hlen |].
      cbn [Z.ltb Z.compare Pos.compare Pos.compare_cont hd].
      erewrite Domain_cast_run by exact Hnew. reflexivity.
    + replace (1 <? size) with true by (symmetry; apply Z.ltb_lt; lia).
      reflexivity.
  - apply Forall_map, draws_Forall. intros r.
    destruct (next_double_range r).
    now apply pick_in_population.
Qed.

(** X8 at [choice(["a", "b", "c"]).sample(size=3)]. *)
Lemma choice_sample_returns_categories_witness :
  exists new st1 items st2,
    choice [VStr "a"; VStr "b"; VStr "c"] empty_state = (Ok new, st1)
    /\ Domain_sample (fun _ => nan) (fun _ _ => nan) new NoSpec 3 st1
       = (Ok (VList items), st2)
    /\ length items = 3%nat
    /\ Forall (fun x => In x [VStr "a"; VStr "b"; VStr "c"]) items.
Proof.
  destruct (choice_sample_returns_categories
              (fun _ => nan) (fun _ _ => nan)
              [VStr "a"; VStr "b"; VStr "c"] NoSpec 3 empty_state)
    as (new & st1 & items & st2 & Hrun & Hsample & Hlen & Hall).
  - discriminate.
  - lia.
  - exists new, st1, items, st2. repeat split; assumption.
Defined.

(** X9.  [choice([])] is built without complaint, and then [sample] raises
    [IndexError], whatever [size] is. *)
Theorem choice_of_nothing_cannot_be_sampled
    (np_log : float -> float) (np_power : float -> float -> float)
    (spec : Spec) (size : Z) (st : State) :
  exists new st1 st2,
    choice [] st = (Ok new, st1)
    /\ Domain_sample np_log np_power new spec size st1
       = (Raise IndexError, st2).
Proof.
  destruct (choice_run [] st) as (new & st1 & Hrun & Hnew).
  exists new, st1. rewrite Hrun.
  rewrite (Domain_sample_run _ _ _ _ _ _ _ Hnew).
  cbn [current_sampler sampler Sampler_sample].
  rewrite (Categorical_Uniform_sample_run _ _ _ [] _ _ Hnew) by reflexivity.
  unfold bind, random_choices.
  destruct (size <=? 0).
  - exists st1. split; reflexivity.
  - unfold bind. rewrite py_draws_run. eexists. split; reflexivity.
Qed.

(** ** An empty draw *)



(** ** Quantized integers *)

Lemma qrandint_randint lower upper q st :
  qrandint lower upper q st
  = (self <- randint lower upper ;; Integer_quantized self q) st.
Proof.
  unfold qrandint, randint, bind.
  now destruct (Integer_init lower upper st) as [[self | e] st1].
Qed.

Lemma qrandint_run lower upper q st :
  exists new st1,
    qrandint lower upper q st = (Ok new, st1)
    /\ heap st1 !! new
       = Some {| attrs := Integer lower upper;
                 sampler := Some (Quantized Integer_Uniform q) |}.
Proof.
  rewrite qrandint_randint.
  destruct (randint_run lower upper st) as (self & st0 & Hrun & Hself).
  rewrite (bind_Ok _ _ _ _ _ Hrun), (Integer_quantized_run _ _ _ _ Hself).
  unfold attached. cbn [sampler sampler_set negb andb current_sampler].
  eexists _, _. split; [reflexivity |]. apply lookup_insert_eq.
Qed.

Lemma Integer_Uniform_sample_one st self d lower upper spec :
  heap st !! self = Some d -> attrs d = Integer lower upper ->
  lower < upper -> int64_min <= lower -> upper - 1 <= int64_max ->
  Integer_Uniform_sample self spec 1 st
  = (Ok (VInt (lower + next_word (np_random st) mod (upper - lower))),
     np_drawn next_word 1 st).
Proof.
  intros H Ha Hlt Hlo Hhi.
  rewrite (Integer_Uniform_sample_run _ _ _ _ _ _ _ H Ha).
  unfold bind. rewrite np_random_randint_run by lia.
  change (Z.to_nat 1) with 1%nat.
  erewrite items_or_scalar_run by exact H.
  cbn [draws fst map len length getitem0].
  change (1 <? Z.of_nat 1) with false. cbv iota.
  unfold cast. now rewrite Ha.
Qed.






(** The upper bound itself can come out of a quantized integer draw:
    [qrandint(0, 6, 6)] with a draw of 5. *)
Example qrandint_reaches_upper :
  fst ((self <- qrandint 0 6 (Int 6) ;;
        Domain_sample (fun _ => nan) (fun _ _ => nan) self NoSpec 1)
         empty_state)
  = Ok (VInt 6).
Proof. vm_compute. reflexivity. Qed.

(** ** Quantized floats *)





(** ** Normal draws *)

Lemma np_random_normal_run mean sd size st :
  fgt sd (Fin 0) = true -> 0 <= size ->
  np_random_normal mean sd size st
  = (Ok (map (fun g => fadd mean (fmul sd (Fin g)))
           (fst (draws next_gauss (Z.to_nat size) (np_random st)))),
     np_drawn next_gauss (Z.to_nat size) st).
Proof.
  intros Hsd Hsize. unfold np_random_normal.
  rewrite (fgt_0_not_flt _ Hsd).
  replace (size <? 0) with false by (symmetry; apply Z.ltb_ge; lia).
  unfold bind. now rewrite np_draws_run.
Qed.

Lemma randn_run mean sd st :
  randn mean sd st
  = if fgt sd (Fin 0) then
      attached (copied st {| attrs := Float neg_inf inf; sampler := None |})
        {| attrs := Float neg_inf inf; sampler := None |}
        (Float_Normal mean sd) false
    else
      (Raise (AssertionError "SD has to be strictly greater than 0"),
       copied (copied st {| attrs := Float neg_inf inf; sampler := None |})
         {| attrs := Float neg_inf inf; sampler := None |}).
Proof.
  unfold randn, Float_init. cbn [default from_option id].
  set (d := {| attrs := Float neg_inf inf; sampler := None |}).
  unfold bind at 1.
  change (alloc d st) with (Ok (fresh_loc st), copied st d). cbv iota beta.
  rewrite (Float_normal_run _ _ d) by apply lookup_insert_eq.
  unfold Normal_init. now destruct (fgt sd (Fin 0)).
Qed.

(** X13.  [randn(mean, sd)], that is [Float(None, None).normal(mean, sd)]:
    with [sd > 0] the domain is built and [sample(size=N)], [N >= 1], returns
    [mean + sd * g] for each of the [N] deviates [g] drawn, as one float for
    [N = 1] and as an array of [N] floats otherwise; with an [sd] that is not
    above zero the constructor of the sampler raises [AssertionError] and no
    domain is returned. *)
Theorem randn_draws_mean_plus_sd_times_deviate
    (np_log : float -> float) (np_power : float -> float -> float)
    (mean sd : float) (spec : Spec) (N : Z) (st : State) :
  (fgt sd (Fin 0) = true -> 1 <= N ->
   exists new st1 st2,
     randn mean sd st = (Ok new, st1)
     /\ let values :=
          map (fun g => fadd mean (fmul sd (Fin g)))
            (fst (draws next_gauss (Z.to_nat N) (np_random st))) in
        Domain_sample np_log np_power new spec N st1
        = (Ok (if N =? 1 then VFloat (hd nan values)
               else VArray (float_array values)), st2)
        /\ length values = Z.to_nat N)
  /\ (fgt sd (Fin 0) = false ->
      exists st1,
        randn mean sd st
        = (Raise (AssertionError "SD has to be strictly greater than 0"),
           st1)).
Proof.
  rewrite randn_run. split.
  - intros Hsd HN. rewrite Hsd. unfold attached.
    cbn [sampler sampler_set andb].
    set (d := {| attrs := Float neg_inf inf; sampler := None |}).
    set (st0 := copied st d).
    set (st1 := set_heap _ st0).
    assert (Hnew : heap st1 !! fresh_loc st0
                   = Some (with_sampler d (Float_Normal mean sd)))
      by apply lookup_insert_eq.
    exists (fresh_loc st0), st1, (np_drawn next_gauss (Z.to_nat N) st1).
    split; [reflexivity |]. cbv zeta.
    set (values := map _ _).
    assert (Hlen : length values = Z.to_nat N)
      by (unfold values; now rewrite length_map, draws_length).
    split; [| exact Hlen].
    rewrite (Domain_sample_run _ _ _ _ _ _ _ Hnew).
    cbn [current_sampler with_sampler sampler Sampler_sample].
    rewrite (Float_Normal_sample_run _ _ _ neg_inf inf _ _ _ _ Hnew)
      by reflexivity.
    cbn [truthy feq negb orb]. unfold bind.
    rewrite np_random_normal_run by (assumption || lia).
    change (np_random st1) with (np_random st). fold values.
    erewrite items_or_scalar_run by exact Hnew.
    f_equal. cbn [len]. rewrite Hlen, Z2Nat.id by lia.
    destruct (Z.eqb_spec N 1) as [-> | Hne].
    + destruct values as [| v values']; [discriminate Hlen |]. reflexivity.
    + replace (1 <? N) with true by (symmetry; apply Z.ltb_lt; lia).
      reflexivity.
  - intros Hsd. rewrite Hsd. eexists. reflexivity.
Qed.

(** X13 at [randn(0, 1)], three draws, and at [randn(0, 0)]. *)
Lemma randn_draws_mean_plus_sd_times_deviate_witness :
  (exists new st1 st2,
     randn (Fin 0) (Fin 1) empty_state = (Ok new, st1)
     /\ Domain_sample (fun _ => nan) (fun _ _ => nan) new NoSpec 3 st1
        = (Ok (VArray (float_array [Fin 0; Fin (1 # 2); Fin 1])), st2))
  /\ (exists st1,
        randn (Fin 0) (Fin 0) empty_state
        = (Raise (AssertionError "SD has to be strictly greater than 0"),
           st1)).
Proof.
  split.
  - destruct (randn_draws_mean_plus_sd_times_deviate
                (fun _ => nan) (fun _ _ => nan) (Fin 0) (Fin 1) NoSpec 3
                empty_state) as [Hok _].
    destruct Hok as (new & st1 & st2 & Hrun & Hsample & _).
    + reflexivity.
    + lia.
    + exists new, st1, st2. split; [exact Hrun | exact Hsample].
  - destruct (randn_draws_mean_plus_sd_times_deviate
                (fun _ => nan) (fun _ _ => nan) (Fin 0) (Fin 0) NoSpec 3
                empty_state) as [_ Hbad].
    apply Hbad. reflexivity.
Defined.

(** ** is_valid *)


Lemma fle_of_Z a b : fle (of_Z a) (of_Z b) = (a <=? b).
Proof.
  cbn [of_Z fle]. apply eq_true_iff_eq.
  now rewrite Qle_bool_iff, <- Zle_Qle, Z.leb_le.
Qed.

Lemma Integer_is_valid_run st self d lower upper v :
  heap st !! self = Some d -> attrs d = Integer lower upper ->
  Integer_is_valid self v st = (Ok ((lower <=? v) && (v <=? upper)), st).
Proof.
  intros H Ha. unfold Integer_is_valid.
  rewrite (bind_deref _ _ _ _ H), bind_lift.
  unfold get_lower, get_upper. rewrite Ha. cbn [to_float].
  rewrite fle_of_Z. destruct (lower <=? v); [| reflexivity].
  rewrite bind_lift. cbn [to_float]. now rewrite fle_of_Z.
Qed.




(** X15.  [Integer.is_valid] takes both bounds as valid, [randint] draws
    below [upper]: for [randint(lower, upper)] with [lower < upper] (within
    numpy's integer type) and [size >= 1], every integer drawn is valid, and
    [upper] is valid although it is never among the integers drawn. *)
Theorem randint_draws_are_valid_and_upper_is_valid_but_not_drawn
    (np_log : float -> float) (np_power : float -> float -> float)
    (lower upper : Z) (spec : Spec) (size : Z) (st : State) :
  lower < upper ->
  int64_min <= lower ->
  upper - 1 <= int64_max ->
  1 <= size ->
  exists new st1 zs st2,
    randint lower upper st = (Ok new, st1)
    /\ Domain_sample np_log np_power new spec size st1
       = (Ok (if size =? 1 then VInt (hd 0 zs) else VArray (int_array zs)),
          st2)
    /\ Forall (fun z => Integer_is_valid new z st2 = (Ok true, st2)) zs
    /\ Integer_is_valid new upper st2 = (Ok true, st2)
    /\ ~ In upper zs.
Proof.
  intros Hlt Hlo Hhi Hsize.
  destruct (randint_run lower upper st) as (new & st1 & Hrun & Hnew).
  set (zs := map (fun w => lower + w mod (upper - lower))
               (fst (draws next_word (Z.to_nat size) (np_random st1)))).
  assert (Hlen : length zs = Z.to_nat size)
    by (unfold zs; now rewrite length_map, draws_length).
  assert (Hzs : Forall (in_half_open lower upper) zs).
  { apply Forall_map, draws_Forall. intros r. unfold in_half_open.
    pose proof (Z.mod_pos_bound (next_word r) (upper - lower)). lia. }
  exists new, st1, zs, (np_drawn next_word (Z.to_nat size) st1).
  assert (Hnew2 : heap (np_drawn next_word (Z.to_nat size) st1) !! new
                  = Some {| attrs := Integer lower upper;
                            sampler := Some Integer_Uniform |}) by exact Hnew.
  split; [exact Hrun |]. split; [| split; [| split]].
  - rewrite (Domain_sample_run _ _ _ _ _ _ _ Hnew).
    cbn [current_sampler sampler Sampler_sample].
    rewrite (Integer_Uniform_sample_run _ _ _ lower upper _ _ Hnew)
      by reflexivity.
    unfold bind. rewrite np_random_randint_run by lia. fold zs.
    erewrite items_or_scalar_run by exact Hnew.
    f_equal. cbn [len]. rewrite Hlen, Z2Nat.id by lia.
    destruct (Z.eqb_spec size 1) as [-> | Hne].
    + destruct zs as [| z zs']; [discriminate Hlen |]. reflexivity.
    + replace (1 <? size) with true by (symmetry; apply Z.ltb_lt; lia).
      reflexivity.
  - eapply Forall_impl; [exact Hzs |]. intros z [Hz0 Hz1].
    rewrite (Integer_is_valid_run _ _ _ lower upper _ Hnew2) by reflexivity.
    replace (lower <=? z) with true by (symmetry; apply Z.leb_le; lia).
    replace (z <=? upper) with true by (symmetry; apply Z.leb_le; lia).
    reflexivity.
  - rewrite (Integer_is_valid_run _ _ _ lower upper _ Hnew2) by reflexivity.
    replace (lower <=? upper) with true by (symmetry; apply Z.leb_le; lia).
    now rewrite Z.leb_refl.
  - intros Hin. rewrite List.Forall_forall in Hzs.
    destruct (Hzs upper Hin) as [_ Hlt']. lia.
Qed.

(** X15 at [randint(0, 10).sample(size=5)]. *)
Lemma randint_draws_are_valid_and_upper_is_valid_but_not_drawn_witness :
  exists new st1 zs st2,
    randint 0 10 empty_state = (Ok new, st1)
    /\ Domain_sample (fun _ => nan) (fun _ _ => nan) new NoSpec 5 st1
       = (Ok (VArray (int_array zs)), st2)
    /\ Integer_is_valid new 10 st2 = (Ok true, st2)
    /\ ~ In 10 zs.
Proof.
  destruct (randint_draws_are_valid_and_upper_is_valid_but_not_drawn
              (fun _ => nan) (fun _ _ => nan) 0 10 NoSpec 5 empty_state)
    as (new & st1 & zs & st2 & Hrun & Hsample & _ & Hup & Hnot).
  - lia.
  - vm_compute. discriminate.
  - vm_compute. discriminate.
  - lia.
  - exists new, st1, zs, st2. repeat split; assumption.
Defined.

(** ** quantized after quantized *)

Lemma quantizable_with_sampler d s q :
  quantizable d q -> quantizable (with_sampler d s) q.
Proof. intros H. exact H. Qed.

(** X16.  A second [quantized()] does not replace the first: it wraps it.
    On a Float or Integer domain whose bound checks pass for both steps,
    [self.quantized(q1).quantized(q2)] returns two new domains, the first
    with [Quantized(s, q1)] and the second with
    [Quantized(Quantized(s, q1), q2)], where [s] is the sampler of [self]
    (the uniform one if none is attached).  On a Float domain, when [s]
    draws the float [x], [sample] on the second domain returns
    [x] quantized by [q1] and then by [q2]. *)
Theorem quantized_twice_wraps_twice
    (np_log : float -> float) (np_power : float -> float -> float)
    (st : State) (self : loc) (d : Domain) (q1 q2 : num) :
  heap st !! self = Some d ->
  quantizable d q1 ->
  quantizable d q2 ->
  exists mid st1 new st2,
    call (call_quantized q1) self st = (Ok mid, st1)
    /\ call (call_quantized q2) mid st1 = (Ok new, st2)
    /\ heap st2 !! mid
       = Some (with_sampler d (Quantized (current_sampler d) q1))
    /\ heap st2 !! new
       = Some (with_sampler d
                 (Quantized (Quantized (current_sampler d) q1) q2))
    /\ forall lower upper spec size x st3,
         attrs d = Float lower upper ->
         Sampler_sample np_log np_power (current_sampler d) new spec size st2
         = (Ok (VFloat x), st3) ->
         Domain_sample np_log np_power new spec size st2
         = (Ok (VFloat (quantize q2 (quantize q1 x))), st3).
Proof.
  intros H Hq1 Hq2.
  assert (Hc1 : call (call_quantized q1) self st
                = (Ok (fresh_loc st),
                   set_heap
                     (<[fresh_loc st :=
                          with_sampler d (Quantized (current_sampler d) q1)]>
                        (heap st)) st)).
  { rewrite (call_quantized_run _ _ _ _ H Hq1). unfold attached.
    now rewrite andb_false_r. }
  set (mid := fresh_loc st) in *.
  set (d1 := with_sampler d (Quantized (current_sampler d) q1)) in *.
  set (st1 := set_heap _ st) in *.
  assert (Hm : heap st1 !! mid = Some d1) by apply lookup_insert_eq.
  assert (Hc2 : call (call_quantized q2) mid st1
                = (Ok (fresh_loc st1),
                   set_heap
                     (<[fresh_loc st1 :=
                          with_sampler d1
                            (Quantized (current_sampler d1) q2)]>
                        (heap st1)) st1)).
  { rewrite (call_quantized_run _ _ _ _ Hm
               (quantizable_with_sampler _ _ _ Hq2)).
    unfold attached. now rewrite andb_false_r. }
  set (new := fresh_loc st1) in *.
  set (d2 := with_sampler d1 (Quantized (current_sampler d1) q2)) in *.
  set (st2 := set_heap _ st1) in *.
  assert (Hn : heap st2 !! new = Some d2) by apply lookup_insert_eq.
  exists mid, st1, new, st2.
  split; [exact Hc1 |]. split; [exact Hc2 |].
  split.
  { cbn [st2 heap set_heap]. rewrite lookup_insert_ne; [exact Hm |].
    now apply (fresh_loc_ne st1 mid d1). }
  split; [exact Hn |].
  intros lower upper spec size x st3 Ha Hx.
  rewrite (Domain_sample_run _ _ _ _ _ _ _ Hn).
  cbn [current_sampler with_sampler sampler d1 d2 Sampler_sample].
  pose proof (preserves_Sampler_sample np_log np_power (current_sampler d)
                new spec size st2) as Hheap.
  rewrite Hx in Hheap. cbn [snd] in Hheap.
  assert (Hn3 : heap st3 !! new = heap st2 !! new) by now rewrite Hheap.
  rewrite Hn in Hn3.
  assert (Hcast : forall f, cast d2 (VFloat f) = Ok (VFloat f)).
  { intros f. unfold cast, d2, d1. cbn [with_sampler attrs]. now rewrite Ha. }
  rewrite (Quantized_sample_scalar _ _ _ d2 _
             (VFloat (quantize q1 x)) (quantize q1 x) st3).
  - now rewrite Hcast.
  - rewrite (Quantized_sample_scalar _ _ _ d2 _ (VFloat x) x st3);
      [now rewrite Hcast | exact Hx | reflexivity | exact Hn3].
  - reflexivity.
  - exact Hn3.
Qed.

(** X16 at [Float(0, 10).quantized(2.5).quantized(5)]. *)
Lemma quantized_twice_wraps_twice_witness :
  let st := snd (Float_init (Some (Fin 0)) (Some (Fin 10)) empty_state) in
  exists mid st1 new st2,
    call (call_quantized (Flt (Fin (5 # 2)))) 1%positive st = (Ok mid, st1)
    /\ call (call_quantized (Int 5)) mid st1 = (Ok new, st2)
    /\ heap st2 !! new
       = Some {| attrs := Float (Fin 0) (Fin 10);
                 sampler :=
                   Some (Quantized
                           (Quantized Float_Uniform (Flt (Fin (5 # 2))))
                           (Int 5)) |}.
Proof.
  intros st.
  destruct (quantized_twice_wraps_twice (fun _ => nan) (fun _ _ => nan)
              st 1%positive
              {| attrs := Float (Fin 0) (Fin 10); sampler := None |}
              (Flt (Fin (5 # 2))) (Int 5))
    as (mid & st1 & new & st2 & H1 & H2 & _ & Hnew & _).
  - vm_compute. reflexivity.
  - split; vm_compute; reflexivity.
  - split; vm_compute; reflexivity.
  - exists mid, st1, new, st2. repeat split; assumption.
Defined.

(** ** The bounds of a Float at sample time *)

Lemma Float_Uniform_sample_checks st self d lower upper spec size :
  heap st !! self = Some d -> attrs d = Float lower upper ->
  Float_Uniform_sample self spec size st
  = if fgt lower neg_inf then
      if flt upper inf then
        (items <- np_random_uniform (Flt lower) (Flt upper) size ;;
         items_or_scalar self (float_array items)) st
      else (Raise (AssertionError "Uniform needs a upper bound"), st)
    else (Raise (AssertionError "Uniform needs a lower bound"), st).
Proof.
  intros H Ha. unfold Float_Uniform_sample.
  rewrite (bind_deref _ _ _ _ H), bind_lift.
  unfold get_lower, get_upper. rewrite Ha. cbn [to_float].
  destruct (fgt lower neg_inf); [| reflexivity].
  unfold assert at 1. unfold bind at 1, ret at 1. rewrite bind_lift.
  cbn [to_float]. destruct (flt upper inf); reflexivity.
Qed.

(** X17.  The uniform sampler of Float checks the bounds again when it
    samples.  A Float that lacks a bound and has no sampler attached was
    never refused by a builder, and its [sample] raises [AssertionError]:
    for the lower bound first, then for the upper one; no draw is made. *)
Theorem Float_sample_without_a_bound_raises_AssertionError
    (np_log : float -> float) (np_power : float -> float -> float)
    (st : State) (self : loc) (d : Domain) (lower upper : float)
    (spec : Spec) (size : Z) :
  heap st !! self = Some d ->
  attrs d = Float lower upper ->
  sampler d = None ->
  (fgt lower neg_inf = false ->
   Domain_sample np_log np_power self spec size st
   = (Raise (AssertionError "Uniform needs a lower bound"), st))
  /\ (fgt lower neg_inf = true -> flt upper inf = false ->
      Domain_sample np_log np_power self spec size st
      = (Raise (AssertionError "Uniform needs a upper bound"), st)).
Proof.
  intros H Ha Hs.
  rewrite (Domain_sample_run _ _ _ _ _ _ _ H).
  unfold current_sampler, default_sampler_cls. rewrite Hs, Ha.
  cbn [Sampler_sample].
  rewrite (Float_Uniform_sample_checks _ _ _ _ _ _ _ H Ha).
  split.
  - now intros ->.
  - now intros -> ->.
Qed.

(** X17 at [Float(None, None).sample()]. *)
Lemma Float_sample_without_a_bound_raises_AssertionError_witness :
  let st := snd (Float_init None None empty_state) in
  Domain_sample (fun _ => nan) (fun _ _ => nan) 1%positive NoSpec 1 st
  = (Raise (AssertionError "Uniform needs a lower bound"), st).
Proof.
  intros st.
  apply (Float_sample_without_a_bound_raises_AssertionError
           (fun _ => nan) (fun _ _ => nan) st 1%positive
           {| attrs := Float neg_inf inf; sampler := None |} neg_inf inf
           NoSpec 1).
  - vm_compute. reflexivity.
  - reflexivity.
  - reflexivity.
  - reflexivity.
Defined.

(** ** A quantization step of zero *)

Lemma quantize_zero q x :
  feq (to_float q) (Fin 0) = true -> quantize q x = nan.
Proof.
  intros Hq. unfold quantize.
  destruct (to_float q) as [| | | y]; try discriminate Hq.
  cbn [feq] in Hq.
  assert (Hs : Qsign y = Eq).
  { unfold Qsign. apply Qeq_alt. apply Qeq_bool_iff in Hq. lra. }
  destruct x as [| | | x]; cbn [fdiv]; rewrite ?Hq; cbn [fround fmul];
    rewrite ?Hs; try reflexivity.
  unfold signed_inf. destruct (Qsign x); cbn [fround fneg fmul];
    rewrite ?Hs; reflexivity.
Qed.

Lemma qrandn_run mean sd q st :
  fgt sd (Fin 0) = true ->
  exists new st1,
    qrandn mean sd q st = (Ok new, st1)
    /\ heap st1 !! new
       = Some {| attrs := Float neg_inf inf;
                 sampler := Some (Quantized (Float_Normal mean sd) q) |}.
Proof.
  intros Hsd.
  assert (E : qrandn mean sd q st
              = (self <- randn mean sd ;; Float_quantized self q) st).
  { unfold qrandn, randn, bind.
    now destruct (Float_init None None st) as [[self | e] st1]. }
  rewrite E. unfold bind at 1. rewrite randn_run, Hsd. unfold attached.
  cbn [sampler sampler_set andb].
  set (d := {| attrs := Float neg_inf inf; sampler := None |}).
  set (st0 := copied st d). set (st1 := set_heap _ st0).
  assert (Hself : heap st1 !! fresh_loc st0
                  = Some (with_sampler d (Float_Normal mean sd)))
    by apply lookup_insert_eq.
  rewrite (Float_quantized_run _ _ _ neg_inf inf _ Hself) by reflexivity.
  cbn [fgt flt not_divisible]. unfold attached. rewrite andb_false_r.
  eexists _, _. split; [reflexivity |]. apply lookup_insert_eq.
Qed.

(** X18.  A quantization step of zero is refused only where a bound is
    divided by it.  [Float.quantized(0)] on a domain with a finite bound
    raises [ZeroDivisionError] and leaves the state as it was.
    [qrandint(lower, upper, 0)] is built, and its [sample(size=1)] raises
    the [ValueError] of [int(nan)].  [qrandn(mean, sd, 0)] is built, and its
    [sample(size=1)] returns [nan]. *)
Theorem a_zero_step_is_caught_late_or_never
    (np_log : float -> float) (np_power : float -> float -> float)
    (q : num) (spec : Spec) (st : State) :
  feq (to_float q) (Fin 0) = true ->
  (forall self d lower upper,
     heap st !! self = Some d -> attrs d = Float lower upper ->
     is_finite lower = true \/ is_finite upper = true ->
     Float_quantized self q st = (Raise ZeroDivisionError, st))
  /\ (forall lower upper,
        lower < upper -> int64_min <= lower -> upper - 1 <= int64_max ->
        exists new st1 st2,
          qrandint lower upper q st = (Ok new, st1)
          /\ Domain_sample np_log np_power new spec 1 st1
             = (Raise (ValueError "cannot convert float NaN to integer"),
                st2))
  /\ (forall mean sd,
        fgt sd (Fin 0) = true ->
        exists new st1 st2,
          qrandn mean sd q st = (Ok new, st1)
          /\ Domain_sample np_log np_power new spec 1 st1
             = (Ok (VFloat nan), st2)).
Proof.
  intros Hq. split; [| split].
  - intros self d lower upper H Ha Hfin.
    rewrite (Float_quantized_run _ _ _ _ _ _ H Ha).
    unfold not_divisible, divisible, py_truediv. rewrite Hq.
    destruct lower as [| | | lo], upper as [| | | hi]; cbn [fgt flt];
      try reflexivity; destruct Hfin as [Hf | Hf]; discriminate Hf.
  - intros lower upper Hlt Hlo Hhi.
    destruct (qrandint_run lower upper q st) as (new & st1 & Hrun & Hnew).
    exists new, st1, (np_drawn next_word 1 st1). split; [exact Hrun |].
    rewrite (Domain_sample_run _ _ _ _ _ _ _ Hnew).
    cbn [current_sampler sampler Sampler_sample].
    match type of Hnew with _ = Some ?d0 => set (d := d0) in Hnew end.
    erewrite (Quantized_sample_scalar _ _ _ d _ (VInt _) (of_Z _)
                (np_drawn next_word 1 st1)).
    + rewrite (quantize_zero _ _ Hq). reflexivity.
    + now apply (Integer_Uniform_sample_one _ _ _ lower upper _ Hnew).
    + reflexivity.
    + exact Hnew.
  - intros mean sd Hsd.
    destruct (qrandn_run mean sd q st Hsd) as (new & st1 & Hrun & Hnew).
    exists new, st1, (np_drawn next_gauss 1 st1). split; [exact Hrun |].
    rewrite (Domain_sample_run _ _ _ _ _ _ _ Hnew).
    cbn [current_sampler sampler Sampler_sample].
    match type of Hnew with _ = Some ?d0 => set (d := d0) in Hnew end.
    erewrite (Quantized_sample_scalar _ _ _ d _ (VFloat _) _
                (np_drawn next_gauss 1 st1)).
    + rewrite (quantize_zero _ _ Hq). reflexivity.
    + rewrite (Float_Normal_sample_run _ _ _ neg_inf inf _ _ _ _ Hnew)
        by reflexivity.
      cbn [truthy feq negb orb]. unfold bind.
      rewrite np_random_normal_run by (assumption || lia).
      change (Z.to_nat 1) with 1%nat.
      erewrite items_or_scalar_run by exact Hnew.
      cbn [draws fst map len length getitem0].
      change (1 <? Z.of_nat 1) with false. cbv iota. reflexivity.
    + reflexivity.
    + exact Hnew.
Qed.

(** X18 at [Float(0, 10).quantized(0)], [qrandint(0, 10, 0)] and
    [qrandn(0, 1, 0)]. *)
Lemma a_zero_step_is_caught_late_or_never_witness :
  (let st := snd (Float_init (Some (Fin 0)) (Some (Fin 10)) empty_state) in
   Float_quantized 1%positive (Int 0) st = (Raise ZeroDivisionError, st))
  /\ (exists new st1 st2,
        qrandint 0 10 (Int 0) empty_state = (Ok new, st1)
        /\ Domain_sample (fun _ => nan) (fun _ _ => nan) new NoSpec 1 st1
           = (Raise (ValueError "cannot convert float NaN to integer"), st2))
  /\ (exists new st1 st2,
        qrandn (Fin 0) (Fin 1) (Int 0) empty_state = (Ok new, st1)
        /\ Domain_sample (fun _ => nan) (fun _ _ => nan) new NoSpec 1 st1
           = (Ok (VFloat nan), st2)).
Proof.
  split; [| split].
  - intros st.
    destruct (a_zero_step_is_caught_late_or_never
                (fun _ => nan) (fun _ _ => nan) (Int 0) NoSpec st)
      as [Hfloat _]; [reflexivity |].
    apply (Hfloat 1%positive
             {| attrs := Float (Fin 0) (Fin 10); sampler := None |}
             (Fin 0) (Fin 10)).
    + vm_compute. reflexivity.
    + reflexivity.
    + now left.
  - destruct (a_zero_step_is_caught_late_or_never
                (fun _ => nan) (fun _ _ => nan) (Int 0) NoSpec empty_state)
      as (_ & Hint & _); [reflexivity |].
    apply (Hint 0 10); [lia | vm_compute; discriminate
                              | vm_compute; discriminate].
  - destruct (a_zero_step_is_caught_late_or_never
                (fun _ => nan) (fun _ _ => nan) (Int 0) NoSpec empty_state)
      as (_ & _ & Hn); [reflexivity |].
    now apply (Hn (Fin 0) (Fin 1)).
Defined.

(** ** Categorical as a sequence *)

(** X19.  Indexing a Categorical: an index from [-len] to [len - 1] returns
    a category, a negative one counting from the end; any other index raises
    [IndexError]; and [len] is the number of categories. *)
Theorem Categorical_getitem_wraps_negative_indices
    (st : State) (self : loc) (d : Domain) (categories : list value)
    (item : Z) :
  heap st !! self = Some d ->
  attrs d = Categorical categories ->
  let n := Z.of_nat (length categories) in
  Categorical_len self st = (Ok n, st)
  /\ (- n <= item < n ->
      exists x,
        Categorical_getitem self item st = (Ok x, st)
        /\ nth_error categories (Z.to_nat (item mod n)) = Some x
        /\ In x categories)
  /\ (item < - n \/ n <= item ->
      Categorical_getitem self item st = (Raise IndexError, st)).
Proof.
  intros H Ha n.
  unfold Categorical_len, Categorical_getitem.
  rewrite !(bind_deref _ _ _ _ H), !bind_lift.
  unfold get_categories. rewrite Ha. fold n. cbv zeta.
  split; [reflexivity |]. split.
  - intros Hrange.
    set (i := if item <? 0 then item + n else item).
    assert (Hi : 0 <= i < n) by (unfold i; destruct (Z.ltb_spec item 0); lia).
    assert (Hmod : item mod n = i).
    { unfold i. destruct (Z.ltb_spec item 0).
      - symmetry. apply (Z.mod_unique_pos _ _ (-1)); lia.
      - apply Z.mod_small. lia. }
    replace ((0 <=? i) && (i <? n)) with true
      by (symmetry; apply andb_true_iff; split;
          [apply Z.leb_le | apply Z.ltb_lt]; lia).
    rewrite Hmod.
    destruct (nth_error categories (Z.to_nat i)) as [x |] eqn:E.
    + exists x. split; [reflexivity |]. split; [reflexivity |].
      eapply nth_error_In. exact E.
    + apply nth_error_None in E. unfold n in Hi. lia.
  - intros Hout.
    set (i := if item <? 0 then item + n else item).
    replace ((0 <=? i) && (i <? n)) with false; [reflexivity |].
    symmetry. apply andb_false_iff. unfold i.
    destruct (Z.ltb_spec item 0);
      [left; apply Z.leb_gt | right; apply Z.ltb_ge]; lia.
Qed.

(** X19 at [choice(["a", "b", "c"])[-1]]. *)
Lemma Categorical_getitem_wraps_negative_indices_witness :
  let st := snd (Categorical_init [VStr "a"; VStr "b"; VStr "c"] empty_state) in
  Categorical_getitem 1%positive (-1) st = (Ok (VStr "c"), st)
  /\ Categorical_getitem 1%positive 3 st = (Raise IndexError, st).
Proof.
  intros st.
  destruct (Categorical_getitem_wraps_negative_indices st 1%positive
              {| attrs := Categorical [VStr "a"; VStr "b"; VStr "c"];
                 sampler := None |}
              [VStr "a"; VStr "b"; VStr "c"] (-1))
    as (_ & Hin & _); [vm_compute; reflexivity | reflexivity |].
  destruct (Categorical_getitem_wraps_negative_indices st 1%positive
              {| attrs := Categorical [VStr "a"; VStr "b"; VStr "c"];
                 sampler := None |}
              [VStr "a"; VStr "b"; VStr "c"] 3)
    as (_ & _ & Hout); [vm_compute; reflexivity | reflexivity |].
  split.
  - destruct Hin as (x & Hget & Hnth & _); [cbn; lia |].
    rewrite Hget. cbn in Hnth. now injection Hnth as <-.
  - apply Hout. right. cbn. lia.
Defined.

(** ** Log-uniform draws *)

Section LogUniform.

Variable np_log : float -> float.
Variable np_power : float -> float -> float.

Lemma LogUniform_draw_run st self d lower upper base a b c size :
  heap st !! self = Some d ->
  get_lower d = Ok lower -> get_upper d = Ok upper ->
  fgt (to_float lower) (Fin 0) = true ->
  flt (Fin 0) (to_float upper) && flt (to_float upper) inf = true ->
  np_log (to_float lower) = Fin a -> np_log (to_float upper) = Fin b ->
  np_log base = Fin c -> ~ (c == 0)%Q -> 0 <= size ->
  LogUniform_draw np_log np_power base self size st
  = (Ok (map (fun e => np_power base (Fin e))
           (map (lerp (Qred (a / c)) (Qred (b / c)))
              (fst (draws next_double (Z.to_nat size) (np_random st))))),
     np_drawn next_double (Z.to_nat size) st).
Proof.
  intros H Hl Hu Hlo Hhi Ha Hb Hc Hc0 Hsize. unfold LogUniform_draw.
  rewrite (bind_deref _ _ _ _ H), bind_lift, Hl, Hlo.
  unfold assert at 1. unfold bind at 1, ret at 1.
  rewrite bind_lift, Hu, Hhi.
  unfold assert at 1. unfold bind at 1, ret at 1.
  rewrite Ha, Hb, Hc. cbn [fdiv].
  replace (Qeq_bool c 0) with false
    by (symmetry; apply not_true_iff_false; now rewrite Qeq_bool_iff).
  unfold bind. rewrite np_random_uniform_run by exact Hsize.
  unfold ret. now rewrite map_map.
Qed.

Lemma exponents_within a b c n r :
  (a / c <= b / c)%Q ->
  Forall (within (a / c) (b / c))
    (map (lerp (Qred (a / c)) (Qred (b / c))) (fst (draws next_double n r))).
Proof.
  intros Hle. apply Forall_map, draws_Forall. intros r'.
  destruct (next_double_range r') as [H0 H1].
  destruct (lerp_bounds (Qred (a / c)) (Qred (b / c)) (next_double r'))
    as [Hlo Hhi]; [now rewrite !Qred_correct | assumption | assumption |].
  split.
  - apply Qle_trans with (Qred (a / c)); [| exact Hlo].
    rewrite Qred_correct. apply Qle_refl.
  - apply Qle_trans with (Qred (b / c)); [exact Hhi |].
    rewrite Qred_correct. apply Qle_refl.
Qed.

Lemma loguniform_built lo hi base st :
  fgt lo (Fin 0) = true -> flt (Fin 0) hi && flt hi inf = true ->
  fgt base (Fin 0) = true ->
  exists new st1,
    loguniform lo hi base st = (Ok new, st1)
    /\ heap st1 !! new
       = Some {| attrs := Float lo hi;
                 sampler := Some (Float_LogUniform base) |}.
Proof.
  intros Hlo Hhi Hb. unfold loguniform, Float_init.
  cbn [default from_option id].
  set (d := {| attrs := Float lo hi; sampler := None |}).
  unfold bind at 1.
  change (alloc d st) with (Ok (fresh_loc st), copied st d). cbv iota beta.
  unfold Float_loguniform.
  rewrite (loguniform_run _ _ _ d (Flt lo) (Flt hi))
    by (reflexivity || apply lookup_insert_eq).
  cbn [to_float]. rewrite Hlo, Hhi. cbn [negb].
  unfold LogUniform_init. rewrite Hb. unfold attached.
  cbn [sampler d sampler_set andb].
  eexists _, _. split; [reflexivity |]. apply lookup_insert_eq.
Qed.


(** X20.  [loguniform(lower, upper, base)] with [lower > 0],
    [0 < upper < inf] and [base > 0], where the logarithms of the three are
    finite, [log(base)] is not zero and
    [log(lower) / log(base) <= log(upper) / log(base)]: the domain is built,
    and [sample(size=N)], [N >= 1], returns [base ** e] for each of [N]
    exponents [e] drawn between those two quotients, as one float for
    [N = 1] and as an array of [N] floats otherwise. *)
Theorem loguniform_draws_base_to_an_exponent_between_the_logs
    (lower upper base : float) (a b c : Q) (spec : Spec) (N : Z)
    (st : State) :
  fgt lower (Fin 0) = true ->
  flt (Fin 0) upper && flt upper inf = true ->
  fgt base (Fin 0) = true ->
  np_log lower = Fin a ->
  np_log upper = Fin b ->
  np_log base = Fin c ->
  ~ (c == 0)%Q ->
  (a / c <= b / c)%Q ->
  1 <= N ->
  exists new st1 es st2,
    loguniform lower upper base st = (Ok new, st1)
    /\ Domain_sample np_log np_power new spec N st1
       = (Ok (if N =? 1 then VFloat (np_power base (Fin (hd 0%Q es)))
              else VArray
                     (float_array
                        (map (fun e => np_power base (Fin e)) es))), st2)
    /\ length es = Z.to_nat N
    /\ Forall (within (a / c) (b / c)) es.
Proof.
  intros Hlo Hhi Hb Ha Hbb Hc Hc0 Hle HN.
  destruct (loguniform_built lower upper base st Hlo Hhi Hb)
    as (new & st1 & Hrun & Hnew).
  set (es := map (lerp (Qred (a / c)) (Qred (b / c)))
               (fst (draws next_double (Z.to_nat N) (np_random st1)))).
  assert (Hlen : length es = Z.to_nat N)
    by (unfold es; now rewrite length_map, draws_length).
  exists new, st1, es, (np_drawn next_double (Z.to_nat N) st1).
  split; [exact Hrun |].
  split; [| split; [exact Hlen | now apply exponents_within]].
  rewrite (Domain_sample_run _ _ _ _ _ _ _ Hnew).
  cbn [current_sampler sampler Sampler_sample].
  unfold Float_LogUniform_sample, bind.
  rewrite (LogUniform_draw_run _ _ _ (Flt lower) (Flt upper) _ a b c _ Hnew)
    by (reflexivity || assumption || lia).
  fold es. erewrite items_or_scalar_run by exact Hnew.
  f_equal. cbn [len]. rewrite length_map, Hlen, Z2Nat.id by lia.
  destruct (Z.eqb_spec N 1) as [-> | Hne].
  - destruct es as [| e es']; [discriminate Hlen |]. reflexivity.
  - replace (1 <? N) with true by (symmetry; apply Z.ltb_lt; lia).
    reflexivity.
Qed.


End LogUniform.

(** X20 at [loguniform(1, 100, 10).sample(size=3)]: exponents between 0
    and 2. *)
Lemma loguniform_draws_base_to_an_exponent_between_the_logs_witness :
  exists new st1 es st2,
    loguniform (Fin 1) (Fin 100) (Fin 10) empty_state = (Ok new, st1)
    /\ Domain_sample log10_of_1_10_100 (fun _ _ => nan) new NoSpec 3 st1
       = (Ok (VArray (float_array (map (fun _ => nan) es))), st2)
    /\ length es = 3%nat
    /\ Forall (within (0 / 1) (2 / 1)) es.
Proof.
  assert (Hc0 : ~ (1 == 0)%Q) by (intros H; discriminate H).
  assert (Hle : (0 / 1 <= 2 / 1)%Q) by (intros H; discriminate H).
  assert (HN : 1 <= 3) by lia.
  destruct (loguniform_draws_base_to_an_exponent_between_the_logs
              log10_of_1_10_100 (fun _ _ => nan) (Fin 1) (Fin 100) (Fin 10)
              0 2 1 NoSpec 3 empty_state
              eq_refl eq_refl eq_refl eq_refl eq_refl eq_refl Hc0 Hle HN)
    as (new & st1 & es & st2 & Hrun & Hsample & Hlen & Hall).
  exists new, st1, es, st2.
  split; [exact Hrun |]. split; [exact Hsample |].
  split; [exact Hlen | exact Hall].
Defined.


(** ** The module-level constructors *)

Lemma makes_alloc d : makes (alloc d) d.
Proof.
  intros st. split; [| split].
  - intros l d0 H. cbn. rewrite lookup_insert_ne; [exact H |].
    now apply (fresh_loc_ne st l d0).
  - split; reflexivity.
  - intros new [= <-]. split; [apply fresh_loc_None | apply lookup_insert_eq].
Qed.

Lemma makes_then (c : M loc) (B : loc -> M loc) d d' :
  makes c d -> extends B d d' -> makes (bind c B) d'.
Proof.
  intros Hc HB st. unfold bind.
  destruct (Hc st) as (Hf & Hg & Hn).
  destruct (c st) as [[self | e] st1]; cbn [fst snd] in *.
  - destruct (Hn self eq_refl) as [_ Hself].
    destruct (HB self st1 Hself) as (Hf' & Hg' & Hn').
    split; [| split].
    + intros l d0 H. now apply Hf', Hf.
    + destruct Hg as [Hg1 Hg2], Hg' as [Hg1' Hg2']. split; congruence.
    + intros new Hr. destruct (Hn' new Hr) as [Hnone Hlook].
      split; [| exact Hlook].
      destruct (heap st !! new) as [x |] eqn:E; [| reflexivity].
      apply Hf in E. congruence.
  - split; [exact Hf |]. split; [exact Hg |]. discriminate.
Qed.

Lemma extends_call b (B : loc -> M loc) d :
  (forall self st, heap st !! self = Some d -> B self st = call b self st) ->
  extends B d (with_sampler d (attached_by b d)).
Proof.
  intros HB self st H. rewrite (HB self st H).
  destruct (built_call b _ _ _ H) as [Hf Hn].
  split; [exact Hf |]. split; [| exact Hn].
  split; [apply keeps_np_call | apply keeps_py_call].
Qed.

Ltac by_call :=
  let self := fresh "self" in
  let st := fresh "st" in
  let H := fresh "H" in
  intros self st H; unfold call; rewrite (bind_deref _ _ _ _ H); reflexivity.

Lemma two_steps (d : Domain) (b1 b2 : builder) (B1 B2 : loc -> M loc) :
  (forall self st, heap st !! self = Some d -> B1 self st = call b1 self st) ->
  (forall self st,
     heap st !! self = Some (with_sampler d (attached_by b1 d)) ->
     B2 self st = call b2 self st) ->
  makes (self <- alloc d ;; self <- B1 self ;; B2 self)
    (with_sampler (with_sampler d (attached_by b1 d))
       (attached_by b2 (with_sampler d (attached_by b1 d)))).
Proof.
  intros H1 H2.
  assert (E : forall st,
             (self <- alloc d ;; self <- B1 self ;; B2 self) st
             = (self <- (self <- alloc d ;; B1 self) ;; B2 self) st).
  { intros st. unfold bind. now destruct (alloc d st) as [[self | e] st1]. }
  intros st. rewrite E.
  apply (makes_then _ B2 (with_sampler d (attached_by b1 d))).
  - apply (makes_then _ B1 d); [apply makes_alloc | now apply extends_call].
  - now apply extends_call.
Qed.

Lemma one_step (d : Domain) (b : builder) (B : loc -> M loc) :
  (forall self st, heap st !! self = Some d -> B self st = call b self st) ->
  makes (self <- alloc d ;; B self) (with_sampler d (attached_by b d)).
Proof.
  intros H. apply (makes_then _ B d); [apply makes_alloc |].
  now apply extends_call.
Qed.

(** X22.  Each of the eleven module-level constructors ([uniform],
    [quniform], [loguniform], [qloguniform], [choice], [randint],
    [lograndint], [qrandint], [qlograndint], [randn], [qrandn]) only
    allocates: whether it returns or raises, the objects that existed are as
    they were and no draw is made; and what it returns is a new domain with
    the bounds or categories it was given and the sampler of its name
    attached ([Quantized] around that sampler for the [q] variants). *)
Theorem constructors_only_allocate (c : constructor) (st : State) :
  (forall l d0,
     heap st !! l = Some d0 -> heap (snd (construct c st)) !! l = Some d0)
  /\ same_generators (snd (construct c st)) st
  /\ (forall new,
        fst (construct c st) = Ok new ->
        heap st !! new = None
        /\ heap (snd (construct c st)) !! new = Some (constructed c)).
Proof.
  revert st. change (makes (construct c) (constructed c)).
  destruct c; cbn [construct constructed];
    unfold uniform, quniform, loguniform, qloguniform, choice, randint,
      lograndint, qrandint, qlograndint, randn, qrandn,
      Float_init, Integer_init, Categorical_init;
    cbn [default from_option id].
  - apply (one_step {| attrs := Float lower upper; sampler := None |}
             call_uniform Float_uniform).
    by_call.
  - apply (two_steps {| attrs := Float lower upper; sampler := None |}
             call_uniform (call_quantized q)
             Float_uniform (fun self => Float_quantized self q)); by_call.
  - apply (one_step {| attrs := Float lower upper; sampler := None |}
             (call_loguniform base) (fun self => Float_loguniform self base)).
    by_call.
  - apply (two_steps {| attrs := Float lower upper; sampler := None |}
             (call_loguniform base) (call_quantized q)
             (fun self => Float_loguniform self base)
             (fun self => Float_quantized self q)); by_call.
  - apply (one_step {| attrs := Categorical categories; sampler := None |}
             call_uniform Categorical_uniform).
    by_call.
  - apply (one_step {| attrs := Integer lower upper; sampler := None |}
             call_uniform Integer_uniform).
    by_call.
  - apply (one_step {| attrs := Integer lower upper; sampler := None |}
             (call_loguniform base)
             (fun self => Integer_loguniform self base)).
    by_call.
  - apply (two_steps {| attrs := Integer lower upper; sampler := None |}
             call_uniform (call_quantized q)
             Integer_uniform (fun self => Integer_quantized self q)); by_call.
  - apply (two_steps {| attrs := Integer lower upper; sampler := None |}
             (call_loguniform base) (call_quantized q)
             (fun self => Integer_loguniform self base)
             (fun self => Integer_quantized self q)); by_call.
  - apply (one_step {| attrs := Float neg_inf inf; sampler := None |}
             (call_normal mean sd) (fun self => Float_normal self mean sd)).
    by_call.
  - apply (two_steps {| attrs := Float neg_inf inf; sampler := None |}
             (call_normal mean sd) (call_quantized q)
             (fun self => Float_normal self mean sd)
             (fun self => Float_quantized self q)); by_call.
Qed.

(** X22 at [qloguniform(1, 100, 1, 10)]. *)
Lemma constructors_only_allocate_witness :
  fst (construct (new_qloguniform (Fin 1) (Fin 100) (Int 1) (Fin 10))
         empty_state) = Ok 3%positive
  /\ heap (snd (construct (new_qloguniform (Fin 1) (Fin 100) (Int 1) (Fin 10))
                  empty_state)) !! 3%positive
     = Some {| attrs := Float (Fin 1) (Fin 100);
               sampler := Some (Quantized (Float_LogUniform (Fin 10))
                                  (Int 1)) |}.
Proof.
  assert (Hr : fst (construct
                      (new_qloguniform (Fin 1) (Fin 100) (Int 1) (Fin 10))
                      empty_state) = Ok 3%positive)
    by (vm_compute; reflexivity).
  split; [exact Hr |].
  destruct (constructors_only_allocate
              (new_qloguniform (Fin 1) (Fin 100) (Int 1) (Fin 10))
              empty_state) as (_ & _ & Hnew).
  apply (Hnew 3%positive Hr).
Defined.

(** ** An empty range of integers *)


